(** * Sequelize validator extensions: a shallow embedding

    The second unit of [src/associations/belongs-to.d.ts] is the
    JavaScript module that clones the [validator] library, adds the
    [extensions] predicates to the clone and overrides [isDate],
    [isImmutable], [notNull] and [isNull].  This file embeds that
    module: JavaScript values, a heap of objects (so that aliasing of
    the library's module object is visible), a state-and-exception
    monad for the function bodies, the bodies themselves, an
    interpreter that resolves [this.name(...)] through the heap, and
    the module initialisation sequence. *)

From Stdlib Require Import ZArith String Ascii List Floats.SpecFloat DecimalString.
From stdpp Require Import base option list gmap strings.

Local Open Scope string_scope.
Local Open Scope Z_scope.

(** ** JavaScript values

    Primitive values, functions and references to heap objects.
    Symbols and BigInts are left out, and so are accessors and
    proxies: a property is a key with a value. *)

Module JS.

(** Numbers are IEEE 754 binary64 values. *)
Definition number : Type := spec_float.

Definition prec : Z := 53.
Definition emax : Z := 1024.

Definition NaN : number := S754_nan.

(** [isNaN(n)] on a value that is already a Number. *)
Definition isNaN (n : number) : bool :=
  match n with S754_nan => true | _ => false end.

(** [a >= b] and [a <= b] on Numbers: false as soon as one side is NaN. *)
Definition num_ge (a b : number) : bool :=
  match SFcompare a b with
  | Some Gt | Some Eq => true
  | _ => false
  end.

Definition num_le (a b : number) : bool :=
  match SFcompare a b with
  | Some Lt | Some Eq => true
  | _ => false
  end.

(** The Number of an integer (correctly rounded). *)
Definition num_of_Z (z : Z) : number :=
  match z with
  | Z0 => S754_zero false
  | Zpos p => binary_normalize prec emax (Zpos p) 0 false
  | Zneg p => binary_normalize prec emax (Zneg p) 0 true
  end.

Abbreviation loc := positive.

(** The functions that exist as values.  Those written in the module
    are named after their source definition; every other function (the
    validator library's own, or a caller's) is [External] with an
    identifier that stands for its identity. *)
Inductive fn : Type :=
  | External (id : string)
  | Extend | NotEmpty | Len | IsUrl | IsIPv6 | IsIPv4 | NotIn
  | Regex | NotRegex | IsDecimal | Min | Max | Not
  | Contains | NotContains | Is
  | IsImmutable | NotNull | IsDate.

Global Instance fn_eq_dec : EqDecision fn.
Proof. solve_decision. Defined.

Inductive value : Type :=
  | VUndefined
  | VNull
  | VBool (b : bool)
  | VNum (n : number)
  | VStr (s : string)
  | VObj (l : loc)
  | VFun (f : fn).

(** The built-in class of an object, as [Object.prototype.toString]
    reports it. *)
Inductive tag : Type :=
  | TObject | TArray | TRegExp | TDate | TError.

Global Instance tag_eq_dec : EqDecision tag.
Proof. solve_decision. Defined.

(** An object: its class and its own properties in insertion order. *)
Record obj : Type := mkObj {
  obj_tag : tag;
  obj_props : list (string * value)
}.

Abbreviation heap := (gmap loc obj).

(** ToBoolean. *)
Definition truthy (v : value) : bool :=
  match v with
  | VUndefined | VNull => false
  | VBool b => b
  | VNum n =>
      match n with
      | S754_zero _ | S754_nan => false
      | _ => true
      end
  | VStr s => negb (String.eqb s "")
  | VObj _ | VFun _ => true
  end.

(** [a === b]. *)
Definition strict_equals (a b : value) : bool :=
  match a, b with
  | VUndefined, VUndefined => true
  | VNull, VNull => true
  | VBool x, VBool y => Bool.eqb x y
  | VNum x, VNum y => SFeqb x y
  | VStr x, VStr y => String.eqb x y
  | VObj x, VObj y => Pos.eqb x y
  | VFun f, VFun g => bool_decide (f = g)
  | _, _ => false
  end.

(** [!v] *)
Definition js_not (v : value) : value := VBool (negb (truthy v)).

(** [Object.prototype.toString.call(v).slice(8, -1)] *)
Definition tag_name (t : tag) : string :=
  match t with
  | TObject => "Object"
  | TArray => "Array"
  | TRegExp => "RegExp"
  | TDate => "Date"
  | TError => "Error"
  end.

Definition class_of (h : heap) (v : value) : string :=
  match v with
  | VUndefined => "Undefined"
  | VNull => "Null"
  | VBool _ => "Boolean"
  | VNum _ => "Number"
  | VStr _ => "String"
  | VFun _ => "Function"
  | VObj l =>
      match h !! l with
      | Some o => tag_name (obj_tag o)
      | None => "Object"
      end
  end.

(** Own-property read and write on a property list. *)
Fixpoint lookup_prop (k : string) (ps : list (string * value)) : value :=
  match ps with
  | [] => VUndefined
  | (k', v) :: ps' => if String.eqb k k' then v else lookup_prop k ps'
  end.

Fixpoint has_prop (k : string) (ps : list (string * value)) : bool :=
  match ps with
  | [] => false
  | (k', _) :: ps' => if String.eqb k k' then true else has_prop k ps'
  end.

(** Assignment keeps the position of an existing key and appends a new one. *)
Fixpoint assign_prop (k : string) (v : value) (ps : list (string * value))
  : list (string * value) :=
  match ps with
  | [] => [(k, v)]
  | (k', v') :: ps' =>
      if String.eqb k k' then (k', v) :: ps'
      else (k', v') :: assign_prop k v ps'
  end.

(** The [n]-th actual argument; a missing one is [undefined]. *)
Definition arg (n : nat) (args : list value) : value :=
  nth n args VUndefined.

End JS.

Import JS.

(** ** Outcomes and the monad of function bodies *)

Inductive exn : Type :=
  | TypeError
  | RangeError
  | SyntaxError
  | Thrown (v : value).

Inductive outcome (A : Type) : Type :=
  | Ret (a : A)
  | Throw (e : exn)
  | OutOfFuel.
Arguments Ret {A} a.
Arguments Throw {A} e.
Arguments OutOfFuel {A}.

Definition M (A : Type) : Type := heap -> outcome A * heap.

Definition ret {A} (a : A) : M A := fun h => (Ret a, h).
Definition throw {A} (e : exn) : M A := fun h => (Throw e, h).
Definition out_of_fuel {A} : M A := fun h => (OutOfFuel, h).

Definition bind {A B} (m : M A) (k : A -> M B) : M B :=
  fun h =>
    match m h with
    | (Ret a, h') => k a h'
    | (Throw e, h') => (Throw e, h')
    | (OutOfFuel, h') => (OutOfFuel, h')
    end.

Notation "'let*' x ':=' m 'in' k" := (bind m (fun x => k))
  (at level 10, x name, m at level 100, k at level 200,
   format "'[v' 'let*'  x  ':='  m  'in' '/' k ']'").

Definition get_heap : M heap := fun h => (Ret h, h).

Definition map_outcome {A B} (f : A -> B) (r : outcome A * heap)
  : outcome B * heap :=
  match r with
  | (Ret a, h) => (Ret (f a), h)
  | (Throw e, h) => (Throw e, h)
  | (OutOfFuel, h) => (OutOfFuel, h)
  end.

(** ** What the module takes from its environment

    The engine's built-ins, [moment], and the functions of the
    [validator] library are not part of the module.  They are the
    fields of [Host]; the module is embedded over an arbitrary one. *)

Class Host : Type := {
  (** ToString of a number, an object or a function. *)
  host_ToString : value -> M string;
  (** ToNumber of a string, an object or a function. *)
  host_ToNumber : value -> M number;
  (** [Number.parseFloat] on a string. *)
  host_parseFloat : string -> number;
  (** [Date.parse] on a string. *)
  host_Date_parse : string -> number;
  (** [new Date(t).toISOString()] *)
  host_Date_toISOString : number -> M string;
  (** [moment(s).isValid()] *)
  host_moment_isValid : string -> M bool;
  (** [new RegExp(pattern, modifiers)] *)
  host_RegExp_new : value -> value -> M value;
  (** [s.match(pattern)] for a string [s] *)
  host_String_match : string -> value -> M value;
  (** [/src/.test(v)] for a regular-expression literal *)
  host_RegExp_test : string -> value -> M bool;
  (** A property found beyond the own properties of an object: on a
      primitive, or along the prototype chain. *)
  host_proto_get : value -> string -> M value;
  (** The body of an [External] function: identifier, [this], arguments. *)
  host_external : string -> value -> list value -> M value
}.

(** ** Conversions and property access *)

Section Access.
Context {H : Host}.

Definition ToString (v : value) : M string :=
  match v with
  | VStr s => ret s
  | VUndefined => ret "undefined"
  | VNull => ret "null"
  | VBool true => ret "true"
  | VBool false => ret "false"
  | _ => host_ToString v
  end.

Definition ToNumber (v : value) : M number :=
  match v with
  | VNum n => ret n
  | VUndefined => ret NaN
  | VNull => ret (S754_zero false)
  | VBool true => ret (num_of_Z 1)
  | VBool false => ret (S754_zero false)
  | _ => host_ToNumber v
  end.

(** [base.k]: an own property when there is one, otherwise what the
    host finds. *)
Definition get_prop (base : value) (k : string) : M value :=
  fun h =>
    match base with
    | VUndefined | VNull => (Throw TypeError, h)
    | VObj l =>
        match h !! l with
        | Some o =>
            if has_prop k (obj_props o) then (Ret (lookup_prop k (obj_props o)), h)
            else host_proto_get base k h
        | None => host_proto_get base k h
        end
    | _ => host_proto_get base k h
    end.

(** [base[key]] *)
Definition get_elem (base key : value) : M value :=
  match base with
  | VUndefined | VNull => throw TypeError
  | _ => let* k := ToString key in get_prop base k
  end.

(** [base.k = v] in strict mode (the module starts with ['use strict']):
    assigning on a primitive raises.  Functions carry no properties
    here, so assigning on one raises as well. *)
Definition set_prop (base : value) (k : string) (v : value) : M unit :=
  fun h =>
    match base with
    | VObj l =>
        match h !! l with
        | Some o => (Ret tt, <[l := mkObj (obj_tag o) (assign_prop k v (obj_props o))]> h)
        | None => (Throw TypeError, h)
        end
    | _ => (Throw TypeError, h)
    end.

(** [base[key] = v] *)
Definition set_elem (base key v : value) : M unit :=
  match base with
  | VUndefined | VNull => throw TypeError
  | _ => let* k := ToString key in set_prop base k v
  end.

(** A new object at an unused location. *)
Definition alloc (o : obj) : M loc :=
  fun h => let l := fresh (dom h) in (Ret l, <[l := o]> h).

(** [s.includes(t)] on strings. *)
Fixpoint str_includes (s t : string) : bool :=
  if String.prefix t s then true
  else match s with
       | EmptyString => false
       | String _ s' => str_includes s' t
       end.

(** [recv.name(args)], with [rec] the meaning of a function call. *)
Definition invoke_with (rec : fn -> value -> list value -> M value)
    (recv : value) (name : string) (args : list value) : M value :=
  let* f := get_prop recv name in
  match f with
  | VFun g => rec g recv args
  | _ => throw TypeError
  end.

(** [str.includes(elem)]: the String method when [str] is a string,
    otherwise whatever [includes] the receiver has. *)
Definition call_includes (invoke : value -> string -> list value -> M value)
    (str elem : value) : M value :=
  match str with
  | VStr s =>
      let* h := get_heap in
      if String.eqb (class_of h elem) "RegExp" then throw TypeError
      else let* t := ToString elem in ret (VBool (str_includes s t))
  | _ => invoke str "includes" [elem]
  end.

End Access.

(** ** The function bodies

    Each body is the source function; [invoke] is how it reaches
    [this.name(...)]. *)

Module Ext.
Section Bodies.
Context {H : Host}.
Variable invoke : value -> string -> list value -> M value.

(** [extend(name, fn) { this[name] = fn; return this; }] *)
Definition extend (this name fn_ : value) : M value :=
  let* _ := set_elem this name fn_ in
  ret this.

(** [notEmpty(str) { return !/^\s*$/.test(str); }] *)
Definition notEmpty (str : value) : M value :=
  let* b := host_RegExp_test "^\s*$" str in
  ret (VBool (negb b)).

(** [len(str, min, max) { return this.isLength(str, min, max); }] *)
Definition len (this str min_ max_ : value) : M value :=
  invoke this "isLength" [str; min_; max_].

(** [isUrl(str) { return this.isURL(str); }] *)
Definition isUrl (this str : value) : M value :=
  invoke this "isURL" [str].

(** [isIPv6(str) { return this.isIP(str, 6); }] *)
Definition isIPv6 (this str : value) : M value :=
  invoke this "isIP" [str; VNum (num_of_Z 6)].

(** [isIPv4(str) { return this.isIP(str, 4); }] *)
Definition isIPv4 (this str : value) : M value :=
  invoke this "isIP" [str; VNum (num_of_Z 4)].

(** [notIn(str, values) { return !this.isIn(str, values); }] *)
Definition notIn (this str values : value) : M value :=
  let* r := invoke this "isIn" [str; values] in
  ret (js_not r).

(** [regex(str, pattern, modifiers)]: the pattern is compiled unless it
    already is a RegExp, and the result of [str.match] is returned as
    it is (an array or [null]). *)
Definition regex (str pattern modifiers : value) : M value :=
  let* s := ToString str in
  let* h := get_heap in
  let* p := (if negb (String.eqb (class_of h pattern) "RegExp")
             then host_RegExp_new pattern modifiers
             else ret pattern) in
  host_String_match s p.

(** [notRegex(str, pattern, modifiers) { return !this.regex(str, pattern, modifiers); }] *)
Definition notRegex (this str pattern modifiers : value) : M value :=
  let* r := invoke this "regex" [str; pattern; modifiers] in
  ret (js_not r).

(** [isDecimal(str)]: [str !== '' && Boolean(/.../.test(str))] *)
Definition isDecimal (str : value) : M value :=
  if negb (strict_equals str (VStr "")) then
    let* b := host_RegExp_test "^(?:-?\d+)?(?:\.\d*)?(?:[Ee][+-]?\d+)?$" str in
    ret (VBool b)
  else ret (VBool false).

(** [min(str, val)]: [isNaN(number) || number >= val] *)
Definition min (str val : value) : M value :=
  let* s := ToString str in
  let number := host_parseFloat s in
  if isNaN number then ret (VBool true)
  else let* v := ToNumber val in ret (VBool (num_ge number v)).

(** [max(str, val)]: [isNaN(number) || number <= val] *)
Definition max (str val : value) : M value :=
  let* s := ToString str in
  let number := host_parseFloat s in
  if isNaN number then ret (VBool true)
  else let* v := ToNumber val in ret (VBool (num_le number v)).

(** [not(str, pattern, modifiers) { return this.notRegex(str, pattern, modifiers); }] *)
Definition not_ (this str pattern modifiers : value) : M value :=
  invoke this "notRegex" [str; pattern; modifiers].

(** [contains(str, elem) { return Boolean(elem) && str.includes(elem); }] *)
Definition contains (str elem : value) : M value :=
  if truthy elem then call_includes invoke str elem
  else ret (VBool false).

(** [notContains(str, elem) { return !this.contains(str, elem); }] *)
Definition notContains (this str elem : value) : M value :=
  let* r := invoke this "contains" [str; elem] in
  ret (js_not r).

(** [is(str, pattern, modifiers) { return this.regex(str, pattern, modifiers); }] *)
Definition is_ (this str pattern modifiers : value) : M value :=
  invoke this "regex" [str; pattern; modifiers].

(** [validator.isImmutable]:
    [modelInstance.isNewRecord ||
     modelInstance.dataValues[field] === modelInstance._previousDataValues[field]] *)
Definition isImmutable (value_ validatorArgs field modelInstance : value) : M value :=
  let* isNewRecord := get_prop modelInstance "isNewRecord" in
  if truthy isNewRecord then ret isNewRecord
  else
    let* dataValues := get_prop modelInstance "dataValues" in
    let* cur := get_elem dataValues field in
    let* previous := get_prop modelInstance "_previousDataValues" in
    let* prev := get_elem previous field in
    ret (VBool (strict_equals cur prev)).

(** [validator.notNull]: [val !== null && val !== undefined] *)
Definition notNull (val : value) : M value :=
  if negb (strict_equals val VNull) then ret (VBool (negb (strict_equals val VUndefined)))
  else ret (VBool false).

(** [validator.isDate] *)
Definition isDate (dateString : value) : M value :=
  let* s := ToString dateString in
  let parsed := host_Date_parse s in
  if isNaN parsed then ret (VBool false)
  else
    let* iso := host_Date_toISOString parsed in
    let* ok := host_moment_isValid iso in
    ret (VBool ok).

End Bodies.
End Ext.

(** ** Calling a function value

    [call fuel f this args] runs the function [f]; one unit of fuel is
    spent per call, so that a namespace whose methods call each other
    forever runs out instead of looping. *)

Section Interpreter.
Context {H : Host}.

Fixpoint call (fuel : nat) (f : fn) (this : value) (args : list value) : M value :=
  match fuel with
  | O => out_of_fuel
  | S n =>
      let invoke := invoke_with (call n) in
      match f with
      | External id => host_external id this args
      | Extend => Ext.extend this (arg 0 args) (arg 1 args)
      | NotEmpty => Ext.notEmpty (arg 0 args)
      | Len => Ext.len invoke this (arg 0 args) (arg 1 args) (arg 2 args)
      | IsUrl => Ext.isUrl invoke this (arg 0 args)
      | IsIPv6 => Ext.isIPv6 invoke this (arg 0 args)
      | IsIPv4 => Ext.isIPv4 invoke this (arg 0 args)
      | NotIn => Ext.notIn invoke this (arg 0 args) (arg 1 args)
      | Regex => Ext.regex (arg 0 args) (arg 1 args) (arg 2 args)
      | NotRegex => Ext.notRegex invoke this (arg 0 args) (arg 1 args) (arg 2 args)
      | IsDecimal => Ext.isDecimal (arg 0 args)
      | Min => Ext.min (arg 0 args) (arg 1 args)
      | Max => Ext.max (arg 0 args) (arg 1 args)
      | Not => Ext.not_ invoke this (arg 0 args) (arg 1 args) (arg 2 args)
      | Contains => Ext.contains invoke (arg 0 args) (arg 1 args)
      | NotContains => Ext.notContains invoke this (arg 0 args) (arg 1 args)
      | Is => Ext.is_ invoke this (arg 0 args) (arg 1 args) (arg 2 args)
      | IsImmutable => Ext.isImmutable (arg 0 args) (arg 1 args) (arg 2 args) (arg 3 args)
      | NotNull => Ext.notNull (arg 0 args)
      | IsDate => Ext.isDate (arg 0 args)
      end
  end.

(** [recv.name(args)] *)
Definition invoke (fuel : nat) : value -> string -> list value -> M value :=
  invoke_with (call fuel).

End Interpreter.

(** ** Module initialisation *)

Module Lodash.

(** lodash's clone stack: the clone already made for a source object. *)
Abbreviation memo := (gmap loc loc).

Section Lodash.
Context {H : Host}.


(** Error objects (like WeakMaps and DOM nodes) are not cloneable. *)
Definition cloneable (t : tag) : bool :=
  match t with
  | TError => false
  | _ => true
  end.

(** [assignValue(result, key, baseClone(subValue, ...))] for each key of
    the source, in order. *)
Fixpoint clone_props (rec : value -> memo -> M (value * memo))
    (result : loc) (ps : list (string * value)) (stack : memo) : M memo :=
  match ps with
  | [] => ret stack
  | (key, subValue) :: ps' =>
      let* r := rec subValue stack in
      let* _ := set_prop (VObj result) key (fst r) in
      clone_props rec result ps' (snd r)
  end.

(** [baseClone(value, CLONE_DEEP_FLAG | CLONE_SYMBOLS_FLAG, ..., object, stack)]
    on primitives, functions and objects of the classes above.
    [nested] says that the value is a property of an object being
    cloned: a function or an uncloneable object is then kept as it is,
    and replaced by an empty object at top level. *)
Fixpoint baseClone (fuel : nat) (nested : bool) (v : value) (stack : memo)
  : M (value * memo) :=
  match fuel with
  | O => out_of_fuel
  | S n =>
      match v with
      | VObj l =>
          let* h := get_heap in
          match h !! l with
          | None => ret (v, stack)
          | Some o =>
              if cloneable (obj_tag o) then
                match stack !! l with
                | Some stacked => ret (VObj stacked, stack)
                | None =>
                    let* result := alloc (mkObj (obj_tag o) []) in
                    let* stack' := clone_props (baseClone n true) result
                                     (obj_props o) (<[l := result]> stack) in
                    ret (VObj result, stack')
                end
              else if nested then ret (v, stack)
              else let* result := alloc (mkObj TObject []) in
                   ret (VObj result, stack)
          end
      | VFun _ =>
          if nested then ret (v, stack)
          else let* result := alloc (mkObj TObject []) in
               ret (VObj result, stack)
      | _ => ret (v, stack)
      end
  end.

(** [_.cloneDeep(value)].  The recursion descends once per object not
    yet on the stack, so the number of objects bounds its depth. *)
Definition cloneDeep (v : value) : M value :=
  let* h := get_heap in
  let* r := baseClone (S (size h)) false v ∅ in
  ret (fst r).

Fixpoint forEach_keys (collection : value) (keys : list string)
    (iteratee : value -> string -> M unit) : M unit :=
  match keys with
  | [] => ret tt
  | key :: keys' =>
      let* v := get_prop collection key in
      let* _ := iteratee v key in
      forEach_keys collection keys' iteratee
  end.

(** [_.forEach(collection, iteratee)] on a plain object: the own keys
    are taken first, in order, and each value is read when its turn
    comes.  (The iteratee of the module returns nothing, so the
    early exit on [false] never happens.) *)
Definition forEach (collection : value) (iteratee : value -> string -> M unit) : M unit :=
  let* h := get_heap in
  match collection with
  | VObj l =>
      match h !! l with
      | Some o => forEach_keys collection (map fst (obj_props o)) iteratee
      | None => ret tt
      end
  | _ => ret tt
  end.

End Lodash.
End Lodash.

Section Init.
Context {H : Host}.

(** The object literal [extensions]. *)
Definition extensions_literal : list (string * value) :=
  [ ("extend", VFun Extend); ("notEmpty", VFun NotEmpty); ("len", VFun Len);
    ("isUrl", VFun IsUrl); ("isIPv6", VFun IsIPv6); ("isIPv4", VFun IsIPv4);
    ("notIn", VFun NotIn); ("regex", VFun Regex); ("notRegex", VFun NotRegex);
    ("isDecimal", VFun IsDecimal); ("min", VFun Min); ("max", VFun Max);
    ("not", VFun Not); ("contains", VFun Contains);
    ("notContains", VFun NotContains); ("is", VFun Is) ].

(** The top-level statements of the module, in source order.
    [required] is what [require('validator')] returns: the library's
    module object, the same one for every importer.  The result is the
    pair of exports [(extensions, validator)]. *)
Definition module_init (required : value) : M (value * value) :=
  let* validator := Lodash.cloneDeep required in
  let* e := alloc (mkObj TObject extensions_literal) in
  let extensions := VObj e in
  let* _ := set_prop validator "isImmutable" (VFun IsImmutable) in
  let* _ := set_prop validator "notNull" (VFun NotNull) in
  let* _ := Lodash.forEach extensions
              (fun extend key => set_elem validator (VStr key) extend) in
  let* isEmpty := get_prop validator "isEmpty" in
  let* _ := set_prop validator "isNull" isEmpty in
  let* _ := set_prop validator "isDate" (VFun IsDate) in
  ret (extensions, validator).

End Init.

(** Reading an own property of an object in a heap. *)
Definition own (h : heap) (l : loc) (k : string) : bool :=
  match h !! l with
  | Some o => has_prop k (obj_props o)
  | None => false
  end.

Definition field (h : heap) (l : loc) (k : string) : value :=
  match h !! l with
  | Some o => lookup_prop k (obj_props o)
  | None => VUndefined
  end.


(** ** A reference engine

    An instance of [Host] that computes: string-to-number conversion
    with correct rounding, [Date.parse] on the ECMAScript date-time
    string format, [toISOString], moment's validity check of an ISO
    8601 string, and a small part of the rest.  Time zone is UTC.
    What the fragment does not implement raises [unsupported]. *)

Module Engine.

Definition unsupported {A} : M A := throw (Thrown (VStr "unsupported")).

(** *** Characters and digits *)

Definition is_digit (c : ascii) : bool :=
  let n := Z.of_nat (nat_of_ascii c) in (48 <=? n) && (n <=? 57).

Definition digit_val (c : ascii) : Z := Z.of_nat (nat_of_ascii c) - 48.

(** Tab, line feed, vertical tab, form feed, carriage return, space. *)
Definition is_space (c : ascii) : bool :=
  let n := Z.of_nat (nat_of_ascii c) in
  ((9 <=? n) && (n <=? 13)) || (n =? 32).

Fixpoint skip_spaces (s : string) : string :=
  match s with
  | String c s' => if is_space c then skip_spaces s' else s
  | EmptyString => s
  end.

Fixpoint all_spaces (s : string) : bool :=
  match s with
  | String c s' => is_space c && all_spaces s'
  | EmptyString => true
  end.

(** The digits at the front of [s]: their value, how many, and the rest. *)
Fixpoint digits_from (acc : Z) (n : nat) (s : string) : Z * nat * string :=
  match s with
  | String c s' =>
      if is_digit c then digits_from (10 * acc + digit_val c) (S n) s'
      else (acc, n, s)
  | EmptyString => (acc, n, s)
  end.

Definition digits (s : string) : Z * nat * string := digits_from 0 0%nat s.

(** Exactly [n] digits at the front of [s]. *)
Fixpoint fixed_digits (n : nat) (acc : Z) (s : string) : option (Z * string) :=
  match n with
  | O => Some (acc, s)
  | S n' =>
      match s with
      | String c s' =>
          if is_digit c then fixed_digits n' (10 * acc + digit_val c) s'
          else None
      | EmptyString => None
      end
  end.

Definition expect (c : ascii) (s : string) : option string :=
  match s with
  | String c' s' => if Ascii.eqb c c' then Some s' else None
  | EmptyString => None
  end.

(** *** Decimal literals to binary64 *)

(** [m * 10 ^ e] rounded to nearest, ties to even. *)
Definition decimal_to_number (sign : bool) (m : Z) (e : Z) : number :=
  match m with
  | Z0 => S754_zero sign
  | Zneg _ => S754_nan
  | Zpos _ =>
      if 0 <=? e then binary_round prec emax sign (Z.to_pos (m * 10 ^ e)) 0
      else
        let '(q, e', l) := SFdiv_core_binary prec emax m 0 (10 ^ (- e)) 0 in
        binary_round_aux prec emax sign q e' l
  end.

(** An optional exponent part [e[+-]ddd]; without digits it is not one. *)
Definition exponent_part (s : string) : Z * string :=
  match s with
  | String c s' =>
      if Ascii.eqb c "e" || Ascii.eqb c "E" then
        let '(neg, s'') :=
          match s' with
          | String "-" t => (true, t)
          | String "+" t => (false, t)
          | _ => (false, s')
          end in
        let '(v, n, rest) := digits s'' in
        match n with
        | O => (0, s)
        | _ => (if neg then - v else v, rest)
        end
      else (0, s)
  | EmptyString => (0, s)
  end.

(** The longest StrUnsignedDecimalLiteral at the front of [s]. *)
Definition unsigned_decimal (sign : bool) (s : string) : option (number * string) :=
  if String.prefix "Infinity" s then
    Some (S754_infinity sign, String.substring 8 (String.length s - 8) s)
  else
    let '(ip, ni, r1) := digits s in
    let '(fp, nf, r2, dot) :=
      match r1 with
      | String "." t => let '(f, n, r) := digits t in (f, n, r, true)
      | _ => (0, 0%nat, r1, false)
      end in
    match ni, nf with
    | O, O => None
    | _, _ =>
        let '(ex, r3) := exponent_part r2 in
        Some (decimal_to_number sign (ip * 10 ^ Z.of_nat nf + fp) (ex - Z.of_nat nf), r3)
    end.

Definition signed_decimal (s : string) : option (number * string) :=
  match s with
  | String "-" t => unsigned_decimal true t
  | String "+" t => unsigned_decimal false t
  | _ => unsigned_decimal false s
  end.

(** [Number.parseFloat]: leading white space is skipped and what
    follows the literal is ignored. *)
Definition parseFloat (s : string) : number :=
  match signed_decimal (skip_spaces s) with
  | Some (n, _) => n
  | None => NaN
  end.

(** StringToNumber, decimal literals only: the whole trimmed string
    has to be one. *)
Definition StringToNumber (s : string) : number :=
  let t := skip_spaces s in
  if all_spaces t then S754_zero false
  else match signed_decimal t with
       | Some (n, rest) => if all_spaces rest then n else NaN
       | None => NaN
       end.

(** The integer a Number stands for, when it is one. *)
Definition number_to_Z (n : number) : option Z :=
  match n with
  | S754_zero _ => Some 0
  | S754_finite s m e =>
      let sgn (z : Z) := if s then - z else z in
      if 0 <=? e then Some (sgn (Zpos m * 2 ^ e))
      else if (Zpos m mod 2 ^ (- e)) =? 0 then Some (sgn (Zpos m / 2 ^ (- e)))
      else None
  | _ => None
  end.

(** The integer part of a finite Number. *)
Definition number_trunc (n : number) : option Z :=
  match n with
  | S754_zero _ => Some 0
  | S754_finite s m e =>
      let a := if 0 <=? e then Zpos m * 2 ^ e else Zpos m / 2 ^ (- e) in
      Some (if s then - a else a)
  | _ => None
  end.

(** *** Dates (ECMAScript, section Date Objects) *)

Definition msPerDay : Z := 86400000.

Definition DayFromYear (y : Z) : Z :=
  365 * (y - 1970) + (y - 1969) / 4 - (y - 1901) / 100 + (y - 1601) / 400.

Definition InLeapYear (y : Z) : bool :=
  ((y mod 4 =? 0) && negb (y mod 100 =? 0)) || (y mod 400 =? 0).

Definition YearFromDay (day : Z) : Z :=
  let y := 1970 + (day * 400) / 146097 in
  if day <? DayFromYear y then y - 1
  else if DayFromYear (y + 1) <=? day then y + 1
  else y.

(** Days before the first of each month (0 = January). *)
Definition month_start (leap : bool) (m : Z) : Z :=
  let l := if leap then 1 else 0 in
  match m with
  | 0 => 0 | 1 => 31 | 2 => 59 + l | 3 => 90 + l | 4 => 120 + l
  | 5 => 151 + l | 6 => 181 + l | 7 => 212 + l | 8 => 243 + l
  | 9 => 273 + l | 10 => 304 + l | _ => 334 + l
  end.

Definition days_in_month (y m : Z) : Z :=
  match m with
  | 1 => if InLeapYear y then 29 else 28
  | 3 | 5 | 8 | 10 => 30
  | _ => 31
  end.

Fixpoint month_of (leap : bool) (d : Z) (m : nat) : Z :=
  match m with
  | O => 0
  | S m' => if month_start leap (Z.of_nat m) <=? d then Z.of_nat m
            else month_of leap d m'
  end.

Definition MakeDay (year month date : Z) : Z :=
  let ym := year + month / 12 in
  let mn := month mod 12 in
  DayFromYear ym + month_start (InLeapYear ym) mn + date - 1.

Definition MakeTime (hour min sec ms : Z) : Z :=
  hour * 3600000 + min * 60000 + sec * 1000 + ms.

Definition MakeDate (day time : Z) : Z := day * msPerDay + time.

(** A time value, or [None] for NaN. *)
Definition TimeClip (t : Z) : option Z :=
  if Z.abs t <=? 8640000000000000 then Some t else None.

Definition string_of_Z (z : Z) : string :=
  DecimalString.NilZero.string_of_int (Z.to_int z).

Fixpoint zeros (n : nat) : string :=
  match n with
  | O => ""
  | S n' => String "0" (zeros n')
  end.

(** A non-negative integer on at least [w] digits. *)
Definition pad (w : nat) (z : Z) : string :=
  let d := string_of_Z z in
  zeros (w - String.length d) ++ d.

(** [Date.prototype.toISOString] of a time value. *)
Definition iso_of_time (t : Z) : string :=
  let day := t / msPerDay in
  let ms := t mod msPerDay in
  let y := YearFromDay day in
  let dy := day - DayFromYear y in
  let m := month_of (InLeapYear y) dy 11 in
  let d := dy - month_start (InLeapYear y) m + 1 in
  let year :=
    if (0 <=? y) && (y <=? 9999) then pad 4 y
    else (if y <? 0 then "-" else "+") ++ pad 6 (Z.abs y) in
  year ++ "-" ++ pad 2 (m + 1) ++ "-" ++ pad 2 d ++ "T"
    ++ pad 2 (ms / 3600000) ++ ":" ++ pad 2 (ms / 60000 mod 60) ++ ":"
    ++ pad 2 (ms / 1000 mod 60) ++ "." ++ pad 3 (ms mod 1000) ++ "Z".

(** [new Date(n).toISOString()]: an invalid date raises a RangeError. *)
Definition Date_toISOString (n : number) : M string :=
  match number_trunc n with
  | Some t =>
      match TimeClip t with
      | Some t' => ret (iso_of_time t')
      | None => throw RangeError
      end
  | None => throw RangeError
  end.

(** *** ISO 8601 strings *)

(** The fields read from a date-time string. *)
Record iso_fields : Type := mkIso {
  iso_year : Z;
  iso_month : Z;          (* 1 to 12 *)
  iso_day : Z;
  iso_has_time : bool;
  iso_hour : Z;
  iso_minute : Z;
  iso_second : Z;
  iso_ms : Z;
  iso_offset : option Z   (* minutes east of UTC *)
}.

(** [YYYY] or a sign and [YYYYYY]. *)
Definition parse_year (s : string) : option (Z * string) :=
  match s with
  | String "+" t => fixed_digits 6 0 t
  | String "-" t =>
      match fixed_digits 6 0 t with
      | Some (y, r) => if y =? 0 then None else Some (- y, r)
      | None => None
      end
  | _ => fixed_digits 4 0 s
  end.

(** [-NN], when present. *)
Definition parse_dash2 (s : string) : option (option Z * string) :=
  match s with
  | String "-" t =>
      match fixed_digits 2 0 t with
      | Some (v, r) => Some (Some v, r)
      | None => None
      end
  | _ => Some (None, s)
  end.

(** The first three fraction digits as milliseconds; further digits are dropped. *)
Definition parse_fraction (s : string) : option (Z * string) :=
  let '(_, n, r) := digits s in
  match n with
  | O => None
  | _ =>
      let '(v, k, _) := digits (String.substring 0 3 s) in
      Some (v * 10 ^ (3 - Z.of_nat (Nat.min k 3)), r)
  end.

(** [Z], [+HH:mm] or [-HH:mm], when present; [lax] says whether the
    colon and the minutes may be left out. *)
Definition parse_offset (lax : bool) (s : string) : option (option Z * string) :=
  let signed (neg : bool) (t : string) :=
    match fixed_digits 2 0 t with
    | Some (hh, r) =>
        let r' := match r with
                  | String ":" u => Some u
                  | _ => if lax then Some r else None
                  end in
        match r' with
        | Some u =>
            match fixed_digits 2 0 u with
            | Some (mm, r'') =>
                Some (Some ((if neg then -1 else 1) * (hh * 60 + mm)), r'')
            | None => if lax then Some (Some ((if neg then -1 else 1) * (hh * 60)), r) else None
            end
        | None => None
        end
    | None => None
    end in
  match s with
  | String "Z" t => Some (Some 0, t)
  | String "+" t => signed false t
  | String "-" t => signed true t
  | _ => Some (None, s)
  end.

(** [HH:mm], [HH:mm:ss] or [HH:mm:ss.sss]. *)
Definition parse_time (s : string) : option (Z * Z * Z * Z * string) :=
  match fixed_digits 2 0 s with
  | Some (hh, r1) =>
      match expect ":" r1 with
      | Some r2 =>
          match fixed_digits 2 0 r2 with
          | Some (mm, r3) =>
              match r3 with
              | String ":" r4 =>
                  match fixed_digits 2 0 r4 with
                  | Some (ss, r5) =>
                      match r5 with
                      | String "." r6 =>
                          match parse_fraction r6 with
                          | Some (ms, r7) => Some (hh, mm, ss, ms, r7)
                          | None => None
                          end
                      | _ => Some (hh, mm, ss, 0, r5)
                      end
                  | None => None
                  end
              | _ => Some (hh, mm, 0, 0, r3)
              end
          | None => None
          end
      | None => None
      end
  | None => None
  end.

(** The date-time string format of ECMAScript: a date [YYYY],
    [YYYY-MM] or [YYYY-MM-DD], then possibly [T], a time and an offset. *)
Definition parse_iso (s : string) : option iso_fields :=
  match parse_year s with
  | Some (y, r1) =>
      match parse_dash2 r1 with
      | Some (mo, r2) =>
          match (match mo with Some _ => parse_dash2 r2 | None => Some (None, r2) end) with
          | Some (dd, r3) =>
              let month := default 1 mo in
              let day := default 1 dd in
              match r3 with
              | EmptyString => Some (mkIso y month day false 0 0 0 0 None)
              | String "T" r4 =>
                  match parse_time r4 with
                  | Some (hh, mm, ss, ms, r5) =>
                      match parse_offset false r5 with
                      | Some (off, EmptyString) =>
                          Some (mkIso y month day true hh mm ss ms off)
                      | _ => None
                      end
                  | None => None
                  end
              | _ => None
              end
          | None => None
          end
      | None => None
      end
  | None => None
  end.

Definition time_in_range (f : iso_fields) : bool :=
  ((iso_hour f <=? 23) && (iso_minute f <=? 59) && (iso_second f <=? 59))
  || ((iso_hour f =? 24) && (iso_minute f =? 0) && (iso_second f =? 0)
      && (iso_ms f =? 0)).

(** [Date.parse]: a string in the format above gives its time value,
    read as UTC when it has no offset; a month, day or time out of
    range, and any other string, give NaN. *)
Definition Date_parse (s : string) : number :=
  match parse_iso s with
  | Some f =>
      if (1 <=? iso_month f) && (iso_month f <=? 12)
         && (1 <=? iso_day f) && (iso_day f <=? 31)
         && time_in_range f
      then
        let t := MakeDate (MakeDay (iso_year f) (iso_month f - 1) (iso_day f))
                   (MakeTime (iso_hour f) (iso_minute f) (iso_second f) (iso_ms f))
                 - 60000 * default 0 (iso_offset f) in
        match TimeClip t with
        | Some t' => num_of_Z t'
        | None => NaN
        end
      else NaN
  | None => NaN
  end.

(** moment's reading of an extended ISO 8601 string with a calendar
    date: [YYYY-MM-DD] or the six-digit year form, then possibly [T]
    or a space, a time [HH:mm], [HH:mm:ss] or with a fraction, and an
    offset.  [None] is a string that is not of this shape. *)
Definition moment_parse (s : string) : option iso_fields :=
  match parse_year (skip_spaces s) with
  | Some (y, r1) =>
      match parse_dash2 r1 with
      | Some (Some mo, r2) =>
          match parse_dash2 r2 with
          | Some (Some dd, r3) =>
              match r3 with
              | EmptyString => Some (mkIso y mo dd false 0 0 0 0 None)
              | String c r4 =>
                  if Ascii.eqb c "T" || Ascii.eqb c " " then
                    match parse_time r4 with
                    | Some (hh, mm, ss, ms, r5) =>
                        match parse_offset true (match r5 with
                                                 | String "Z" _ => r5
                                                 | _ => if String.prefix "Z" (skip_spaces r5)
                                                        then skip_spaces r5 else r5
                                                 end) with
                        | Some (off, EmptyString) =>
                            Some (mkIso y mo dd true hh mm ss ms off)
                        | _ => None
                        end
                    | None => None
                    end
                  else None
              end
          | _ => None
          end
      | _ => None
      end
  | None => None
  end.

(** [moment(s).isValid()]: the fields must not overflow (moment's
    checkOverflow).  Strings of another shape are outside the fragment. *)
Definition moment_isValid (s : string) : M bool :=
  match moment_parse s with
  | Some f =>
      ret ((1 <=? iso_month f) && (iso_month f <=? 12)
           && (1 <=? iso_day f)
           && (iso_day f <=? days_in_month (iso_year f) (iso_month f - 1))
           && time_in_range f && (iso_ms f <=? 999))
  | None => unsupported
  end.

(** *** The rest of the fragment *)

(** ToString.  Of the numbers, the integers below [10 ^ 21] are printed. *)
Definition to_string (v : value) : M string :=
  match v with
  | VStr s => ret s
  | VUndefined => ret "undefined"
  | VNull => ret "null"
  | VBool true => ret "true"
  | VBool false => ret "false"
  | VNum S754_nan => ret "NaN"
  | VNum (S754_infinity false) => ret "Infinity"
  | VNum (S754_infinity true) => ret "-Infinity"
  | VNum n =>
      match number_to_Z n with
      | Some z => if Z.abs z <? 10 ^ 21 then ret (string_of_Z z) else unsupported
      | None => unsupported
      end
  | VObj l =>
      fun h =>
        match h !! l with
        | Some (mkObj TObject _) => (Ret "[object Object]", h)
        | _ => unsupported h
        end
  | VFun _ => unsupported
  end.

Definition to_number (v : value) : M number :=
  match v with
  | VStr s => ret (StringToNumber s)
  | _ => unsupported
  end.

Fixpoint plain_text (s : string) : bool :=
  match s with
  | EmptyString => true
  | String c s' =>
      let n := Z.of_nat (nat_of_ascii c) in
      (is_digit c || (n =? 32) || ((65 <=? n) && (n <=? 90))
       || ((97 <=? n) && (n <=? 122))) && plain_text s'
  end.

(** [new RegExp(pattern, modifiers)], for a pattern without special
    characters and no flags. *)
Definition RegExp_new (pattern modifiers : value) : M value :=
  match pattern, modifiers with
  | VStr p, VUndefined =>
      if plain_text p then
        let* l := alloc (mkObj TRegExp [("source", VStr p); ("flags", VStr "")]) in
        ret (VObj l)
      else unsupported
  | _, _ => unsupported
  end.

(** [s.match(re)] for such a RegExp: the first occurrence, or [null]. *)
Definition String_match (s : string) (re : value) : M value :=
  match re with
  | VObj l =>
      let* h := get_heap in
      match h !! l with
      | Some (mkObj TRegExp [("source", VStr p); ("flags", VStr "")]) =>
          if str_includes s p then
            let* a := alloc (mkObj TArray [("0", VStr p)]) in
            ret (VObj a)
          else ret VNull
      | _ => unsupported
      end
  | _ => unsupported
  end.

(** The two regular-expression literals of the module. *)
Definition decimal_shape (s : string) : bool :=
  let after_int :=
    match s with
    | String "-" t => let '(_, n, r) := digits t in
                      match n with O => s | _ => r end
    | _ => let '(_, _, r) := digits s in r
    end in
  let after_frac :=
    match after_int with
    | String "." t => let '(_, _, r) := digits t in r
    | _ => after_int
    end in
  let '(_, rest) := exponent_part after_frac in
  String.eqb rest "".

Definition RegExp_test (src : string) (v : value) : M bool :=
  let* s := to_string v in
  if String.eqb src "^\s*$" then ret (all_spaces s)
  else if String.eqb src "^(?:-?\d+)?(?:\.\d*)?(?:[Ee][+-]?\d+)?$" then ret (decimal_shape s)
  else unsupported.

(** Properties beyond the own ones: the length of a string; nothing else. *)
Definition proto_get (v : value) (k : string) : M value :=
  match v with
  | VStr s =>
      if String.eqb k "length" then ret (VNum (num_of_Z (Z.of_nat (String.length s))))
      else ret VUndefined
  | _ => ret VUndefined
  end.

Fixpoint any_equal (s : string) (vs : list (string * value)) : M bool :=
  match vs with
  | [] => ret false
  | (_, v) :: vs' =>
      let* t := to_string v in
      if String.eqb s t then ret true else any_equal s vs'
  end.

(** The library functions [isEmpty(str)] and [isIn(str, options)] of
    validator.js; both insist on a string. *)
Definition external (id : string) (this : value) (args : list value) : M value :=
  match arg 0 args with
  | VStr s =>
      if String.eqb id "isEmpty" then ret (VBool (String.eqb s ""))
      else if String.eqb id "isIn" then
        match arg 1 args with
        | VObj l =>
            let* h := get_heap in
            match h !! l with
            | Some (mkObj TArray elems) =>
                let* b := any_equal s elems in ret (VBool b)
            | Some (mkObj TObject ps) => ret (VBool (has_prop s ps))
            | _ => ret (VBool false)
            end
        | _ => ret (VBool false)
        end
      else unsupported
  | _ =>
      if String.eqb id "isEmpty" || String.eqb id "isIn" then throw TypeError
      else unsupported
  end.

Definition reference : Host := {|
  host_ToString := to_string;
  host_ToNumber := to_number;
  host_parseFloat := parseFloat;
  host_Date_parse := Date_parse;
  host_Date_toISOString := Date_toISOString;
  host_moment_isValid := moment_isValid;
  host_RegExp_new := RegExp_new;
  host_String_match := String_match;
  host_RegExp_test := RegExp_test;
  host_proto_get := proto_get;
  host_external := external
|}.

End Engine.

(** ** The two regular-expression literals of the module

    [notEmpty] and [isDecimal] test their input against a literal.
    Both literals are anchored at the two ends and use no flag, no
    group reference and no look-around, so [test] is membership of the
    whole string in a regular language.  The literals are written here
    as regular expressions over character classes, with a matcher by
    derivatives and the language it decides. *)

Module Literal.

Inductive re : Type :=
  | Empty                       (* matches nothing *)
  | Eps                         (* the empty string *)
  | Chr (p : ascii -> bool)     (* one character of a class *)
  | Seq (r1 r2 : re)
  | Alt (r1 r2 : re)
  | Star (r : re).

(** [r?] and [r+] *)
Definition Opt (r : re) : re := Alt r Eps.
Definition Plus (r : re) : re := Seq r (Star r).

Fixpoint nullable (r : re) : bool :=
  match r with
  | Empty => false
  | Eps => true
  | Chr _ => false
  | Seq r1 r2 => nullable r1 && nullable r2
  | Alt r1 r2 => nullable r1 || nullable r2
  | Star _ => true
  end.

Fixpoint deriv (c : ascii) (r : re) : re :=
  match r with
  | Empty => Empty
  | Eps => Empty
  | Chr p => if p c then Eps else Empty
  | Seq r1 r2 =>
      if nullable r1 then Alt (Seq (deriv c r1) r2) (deriv c r2)
      else Seq (deriv c r1) r2
  | Alt r1 r2 => Alt (deriv c r1) (deriv c r2)
  | Star r1 => Seq (deriv c r1) (Star r1)
  end.

Fixpoint accepts (r : re) (l : list ascii) : bool :=
  match l with
  | [] => nullable r
  | c :: l' => accepts (deriv c r) l'
  end.

(** [/^r$/.test(s)] *)
Definition re_test (r : re) (s : string) : bool :=
  accepts r (list_ascii_of_string s).

(** The language of a regular expression. *)
Inductive matches : re -> list ascii -> Prop :=
  | MEps : matches Eps []
  | MChr p c : p c = true -> matches (Chr p) [c]
  | MSeq r1 r2 l1 l2 :
      matches r1 l1 -> matches r2 l2 -> matches (Seq r1 r2) (l1 ++ l2)
  | MAltL r1 r2 l : matches r1 l -> matches (Alt r1 r2) l
  | MAltR r1 r2 l : matches r2 l -> matches (Alt r1 r2) l
  | MStar0 r : matches (Star r) []
  | MStarS r l1 l2 :
      matches r l1 -> matches (Star r) l2 -> matches (Star r) (l1 ++ l2).

(** Whether some class of [r] has the character [c]. *)
Fixpoint uses (r : re) (c : ascii) : bool :=
  match r with
  | Empty | Eps => false
  | Chr p => p c
  | Seq r1 r2 | Alt r1 r2 => uses r1 c || uses r2 c
  | Star r1 => uses r1 c
  end.

Definition code (c : ascii) : Z := Z.of_nat (nat_of_ascii c).

(** [\d]: the ten ASCII digits. *)
Definition digit (c : ascii) : bool := (48 <=? code c) && (code c <=? 57).

(** [\s] on the code units below 256: tab, line feed, vertical tab,
    form feed, carriage return, space and no-break space. *)
Definition space (c : ascii) : bool :=
  ((9 <=? code c) && (code c <=? 13)) || (code c =? 32) || (code c =? 160).

Definition one_of (s : string) (c : ascii) : bool :=
  existsb (Ascii.eqb c) (list_ascii_of_string s).

(** [/^\s*$/], the literal of [notEmpty]. *)
Definition blank : re := Star (Chr space).

(** The literal of [isDecimal]: three optional groups between [^]
    and [$], which are [-?\d+], then [\.\d*], then [[Ee][+-]?\d+]. *)
Definition integer_part : re := Seq (Opt (Chr (one_of "-"))) (Plus (Chr digit)).
Definition fraction_part : re := Seq (Chr (one_of ".")) (Star (Chr digit)).
Definition exponent_part : re :=
  Seq (Chr (one_of "Ee")) (Seq (Opt (Chr (one_of "+-"))) (Plus (Chr digit))).

Definition decimal : re :=
  Seq (Opt integer_part) (Seq (Opt fraction_part) (Opt exponent_part)).

(** The source text of a literal, and the literal. *)
Definition literal (src : string) : option re :=
  if String.eqb src "^\s*$" then Some blank
  else if String.eqb src "^(?:-?\d+)?(?:\.\d*)?(?:[Ee][+-]?\d+)?$" then Some decimal
  else None.

(** The reference engine, with [test] on the two literals decided by
    the matcher. *)
Definition RegExp_test (src : string) (v : value) : M bool :=
  let* s := Engine.to_string v in
  match literal src with
  | Some r => ret (re_test r s)
  | None => Engine.unsupported
  end.

Definition engine : Host := {|
  host_ToString := Engine.to_string;
  host_ToNumber := Engine.to_number;
  host_parseFloat := Engine.parseFloat;
  host_Date_parse := Engine.Date_parse;
  host_Date_toISOString := Engine.Date_toISOString;
  host_moment_isValid := Engine.moment_isValid;
  host_RegExp_new := Engine.RegExp_new;
  host_String_match := Engine.String_match;
  host_RegExp_test := RegExp_test;
  host_proto_get := Engine.proto_get;
  host_external := Engine.external
|}.

End Literal.

(** A host whose [test] of the literal [src] is membership in the
    language of [r]. *)
Definition tests_literal (H : Host) (src : string) (r : Literal.re) : Prop :=
  forall s h, host_RegExp_test src (VStr s) h = (Ret (Literal.re_test r s), h).

(** The shapes of the three groups of the [isDecimal] literal. *)
Definition digits (s : string) : Prop :=
  Forall (fun c => Literal.digit c = true) (list_ascii_of_string s).

Definition integer_form (s : string) : Prop :=
  s = ""%string \/
  exists d, d <> ""%string /\ digits d /\ (s = d \/ s = ("-" ++ d)%string).

Definition fraction_form (s : string) : Prop :=
  s = ""%string \/ exists d, digits d /\ s = ("." ++ d)%string.

Definition exponent_form (s : string) : Prop :=
  s = ""%string \/
  exists e sign d,
    (e = "e"%string \/ e = "E"%string) /\
    (sign = ""%string \/ sign = "+"%string \/ sign = "-"%string) /\
    d <> ""%string /\ digits d /\ s = (e ++ sign ++ d)%string.

(** ** Example heaps *)

Module Examples.

(** The module object of the validator library, as [require] hands it
    out: some of its functions, its version, and [default], which
    refers back to the module object. *)
Definition library : loc := 1%positive.

Definition library_module : obj :=
  mkObj TObject
    [ ("version", VStr "13.7.0");
      ("isEmpty", VFun (External "isEmpty"));
      ("isIn", VFun (External "isIn"));
      ("isLength", VFun (External "isLength"));
      ("default", VObj library) ].

Definition start : heap := {[ library := library_module ]}.

(** The heap once the module is loaded, and its export [validator]. *)
Definition loaded : heap :=
  snd (@module_init Engine.reference (VObj library) start).

Definition validator : value :=
  match fst (@module_init Engine.reference (VObj library) start) with
  | Ret (_, v) => v
  | _ => VUndefined
  end.

(** A saved model instance whose [name] was changed and whose [id] was
    not, and a new one. *)
Definition saved : heap :=
  {[ 1%positive := mkObj TObject
                     [ ("isNewRecord", VBool false);
                       ("dataValues", VObj 2%positive);
                       ("_previousDataValues", VObj 3%positive) ];
     2%positive := mkObj TObject [("id", VNum (num_of_Z 7)); ("name", VStr "b")];
     3%positive := mkObj TObject [("id", VNum (num_of_Z 7)); ("name", VStr "a")];
     4%positive := mkObj TObject
                     [ ("isNewRecord", VBool true);
                       ("dataValues", VObj 2%positive);
                       ("_previousDataValues", VObj 3%positive) ] ]}.

End Examples.

(** ** Properties of heaps used below *)

(** Every object of [h0] is still there, unchanged, in [h]. *)
Definition frame (h0 h : heap) : Prop :=
  forall l, is_Some (h0 !! l) -> h !! l = h0 !! l.

(** Objects of [h] are still there in [h'], with their class and at
    least their keys. *)
Definition grows (h h' : heap) : Prop :=
  forall l o, h !! l = Some o ->
    exists o', h' !! l = Some o' /\ obj_tag o' = obj_tag o /\
      forall k, has_prop k (obj_props o) = true -> has_prop k (obj_props o') = true.

(** A value that is not a dangling reference. *)
Definition value_in (h : heap) (v : value) : bool :=
  match v with
  | VObj l => bool_decide (is_Some (h !! l))
  | _ => true
  end.

(** No object of the heap holds a dangling reference. *)
Definition heap_closed (h : heap) : bool :=
  forallb (fun lo => forallb (fun p => value_in h (snd p)) (obj_props (snd lo)))
    (map_to_list h).

(** The objects of [h0] not yet on the clone stack. *)
Definition unvisited (h0 : heap) (stack : Lodash.memo) : nat :=
  size (dom h0 ∖ dom stack : gset loc).

(** What a call of [baseClone] is known to do at depth [n] on a heap
    that extends [h0]: it returns, keeps the objects of [h0] as they
    are, only adds to the others, and only adds to the stack. *)
Definition clones_at (h0 : heap) (n : nat)
    (rec : value -> Lodash.memo -> M (value * Lodash.memo)%type) : Prop :=
  forall (v : value) (stack : Lodash.memo) (h : heap),
    frame h0 h -> value_in h0 v = true -> (unvisited h0 stack < n)%nat ->
    exists (v' : value) (stack' : Lodash.memo) (h' : heap),
      rec v stack h = (Ret (v', stack'), h') /\
      frame h0 h' /\ grows h h' /\ dom stack ⊆@{gset loc} dom stack'.

(** A run of assignments [o[k] = v], in order. *)
Definition assign_all (kvs ps : list (string * value)) : list (string * value) :=
  fold_left (fun acc kv => assign_prop (fst kv) (snd kv) acc) kvs ps.

(** The value the last assignment to [k] in such a run leaves, [d] if
    there is none; and whether [k] is assigned at all. *)
Definition last_assigned (k : string) (kvs : list (string * value)) (d : value) : value :=
  fold_left (fun acc kv => if String.eqb k (fst kv) then snd kv else acc) kvs d.

Definition assigned (k : string) (kvs : list (string * value)) (d : bool) : bool :=
  fold_left (fun acc kv => String.eqb k (fst kv) || acc) kvs d.

(** The properties of the clone [validator] once the module is loaded,
    from those it had when [cloneDeep] returned: the statements after
    [cloneDeep], in order. *)
Definition patched (ps : list (string * value)) : list (string * value) :=
  let ps2 := assign_all [("isImmutable", VFun IsImmutable); ("notNull", VFun NotNull)] ps in
  let ps3 := assign_all extensions_literal ps2 in
  assign_all [("isNull", lookup_prop "isEmpty" ps3); ("isDate", VFun IsDate)] ps3.

(** The claim that the module patches the library's own module object
    [s]: after loading, [s] carries the extensions and the overrides. *)
Definition installs_on_shared (H : Host) (h : heap) (s : loc) : Prop :=
  exists exports h',
    module_init (VObj s) h = (Ret exports, h') /\
    (forall k f, In (k, VFun f) extensions_literal -> field h' s k = VFun f) /\
    field h' s "isDate" = VFun IsDate /\
    field h' s "isImmutable" = VFun IsImmutable.

(** The functions of the module that never look at [this], and those
    that reach a method or a property through it. *)
Definition this_free (f : fn) : bool :=
  match f with
  | NotEmpty | Regex | IsDecimal | Min | Max | Contains
  | IsImmutable | NotNull | IsDate => true
  | _ => false
  end.

Definition needs_this (f : fn) : bool :=
  match f with
  | Extend | Len | IsUrl | IsIPv6 | IsIPv4 | NotIn | NotRegex | Not
  | NotContains | Is => true
  | _ => false
  end.

(** Every object of [h] is in [h'] exactly as it was. *)
Definition keeps (h h' : heap) : Prop :=
  forall l o, h !! l = Some o -> h' !! l = Some o.

(** What [baseClone] returns for a property value [v]: the clone on
    the stack when [v] is a cloneable object that has one, and [v]
    itself when it is a primitive or a function. *)
Definition cloned (h : heap) (stack : Lodash.memo) (v v' : value) : Prop :=
  match v with
  | VObj l =>
      forall o r, h !! l = Some o -> Lodash.cloneable (obj_tag o) = true ->
        stack !! l = Some r -> v' = VObj r
  | _ => v' = v
  end.

(** What is known of a run of [baseClone] on a property value. *)
Definition copies (rec : value -> Lodash.memo -> M (value * Lodash.memo)%type) : Prop :=
  forall v stack h v' stack' h',
    rec v stack h = (Ret (v', stack'), h') ->
    keeps h h' /\ stack ⊆ stack' /\ cloned h stack v v'.

(** The same for the properties of the object [s] whose clone is [c]. *)
Definition cloned_of (s c : loc) (v v' : value) : Prop :=
  match v with
  | VObj l => l = s -> v' = VObj c
  | _ => v' = v
  end.

(** The keys the module assigns on [validator]. *)
Definition patched_keys : list string :=
  ["isImmutable"; "notNull"] ++ map fst extensions_literal ++ ["isNull"; "isDate"].

Definition is_patched_key (k : string) : bool :=
  existsb (String.eqb k) patched_keys.

(** No key twice. *)
Fixpoint distinct (ks : list string) : bool :=
  match ks with
  | [] => true
  | k :: ks' => negb (existsb (String.eqb k) ks') && distinct ks'
  end.

(** What is asked of the library's module object: a plain object (or
    one of another cloneable class) that has [isEmpty], and, like every
    object, no key twice. *)
Definition module_ok (o : obj) : bool :=
  Lodash.cloneable (obj_tag o) && has_prop "isEmpty" (obj_props o)
  && distinct (map fst (obj_props o)).

Module MoreExamples.

(** A library module with the functions the extensions delegate to. *)
Definition library_module : obj :=
  mkObj TObject
    [ ("version", VStr "13.7.0");
      ("isEmpty", VFun (External "isEmpty"));
      ("isIn", VFun (External "isIn"));
      ("isLength", VFun (External "isLength"));
      ("isURL", VFun (External "isURL"));
      ("isIP", VFun (External "isIP"));
      ("contains", VFun (External "contains"));
      ("default", VObj 1%positive) ].

Definition start : heap := {[ 1%positive := library_module ]}.

(** A model instance whose [score] is NaN and whose [born] is a Date
    object, before and now; the two Date objects are distinct. *)
Definition record : heap :=
  {[ 1%positive := mkObj TObject
                     [ ("isNewRecord", VBool false);
                       ("dataValues", VObj 2%positive);
                       ("_previousDataValues", VObj 3%positive) ];
     2%positive := mkObj TObject
                     [ ("id", VNum (num_of_Z 7)); ("score", VNum NaN);
                       ("born", VObj 4%positive) ];
     3%positive := mkObj TObject
                     [ ("id", VNum (num_of_Z 7)); ("score", VNum NaN);
                       ("born", VObj 5%positive) ];
     4%positive := mkObj TDate [];
     5%positive := mkObj TDate [];
     6%positive := mkObj TRegExp [("source", VStr "a"); ("flags", VStr "")] ]}.

End MoreExamples.

(** ** Strict equality *)

Lemma SFcompare_refl (x : number) : isNaN x = false -> SFcompare x x = Some Eq.
Proof.
  destruct x as [s|s| |s m e]; simpl; try done.
  - by destruct s.
  - intros _. destruct s; rewrite Z.compare_refl; f_equal.
    + by rewrite Pos.compare_cont_refl.
    + by rewrite Pos.compare_cont_refl.
Qed.

(** [v === v] holds for every value except NaN. *)
Lemma strict_equals_refl (v : value) :
  v <> VNum NaN -> strict_equals v v = true.
Proof.
  destruct v as [| |b|n|s|l|f]; simpl; intros Hv; try done.
  - by destruct b.
  - unfold SFeqb. rewrite SFcompare_refl; [done|].
    destruct n; try done.
  - apply String.eqb_refl.
  - apply Pos.eqb_refl.
  - by apply bool_decide_eq_true.
Qed.

Lemma strict_equals_NaN (v : value) : strict_equals (VNum NaN) v = false.
Proof. by destruct v. Qed.

(** On values that are not numbers, [===] is equality of values. *)
Lemma strict_equals_eq (a b : value) :
  (forall n, a <> VNum n) -> strict_equals a b = true <-> a = b.
Proof.
  intros Ha. split.
  - destruct a as [| |x|x|x|x|x], b as [| |y|y|y|y|y]; simpl; try done.
    + intros E. by apply Bool.eqb_prop in E as ->.
    + by destruct (Ha x).
    + intros E. by apply String.eqb_eq in E as ->.
    + intros E. by apply Pos.eqb_eq in E as ->.
    + intros E. by apply bool_decide_eq_true in E as ->.
  - intros <-. apply strict_equals_refl. intros E. by destruct (Ha NaN).
Qed.

(** ** The predicates *)

Section Predicates.
Context {H : Host}.

Lemma truthy_js_not (v : value) : truthy (js_not v) = negb (truthy v).
Proof. done. Qed.

(** C2: on a record whose [isNewRecord] flag is [true], [isImmutable]
    returns [true], whatever the field and whatever the current and
    previous values are (they are not even read). *)
Theorem isImmutable_new_record (fuel : nat) (h h' : heap)
    (this value_ validatorArgs field_ modelInstance : value) :
  get_prop modelInstance "isNewRecord" h = (Ret (VBool true), h') ->
  call (S fuel) IsImmutable this [value_; validatorArgs; field_; modelInstance] h
    = (Ret (VBool true), h').
Proof.
  intros Hnew. simpl. unfold Ext.isImmutable, arg, bind. simpl.
  by rewrite Hnew.
Qed.

(** C1: on an existing record (one whose [isNewRecord] is falsy),
    [isImmutable] returns [true] exactly when the current value of the
    field in [dataValues] equals, in the sense of [===], the value
    recorded in [_previousDataValues], and [false] exactly when the two
    differ. *)
Theorem isImmutable_existing_record (fuel : nat) (h : heap)
    (this value_ validatorArgs modelInstance : value) (f : string)
    (isNewRecord dataValues previous cur prev : value) :
  get_prop modelInstance "isNewRecord" h = (Ret isNewRecord, h) ->
  truthy isNewRecord = false ->
  get_prop modelInstance "dataValues" h = (Ret dataValues, h) ->
  get_elem dataValues (VStr f) h = (Ret cur, h) ->
  get_prop modelInstance "_previousDataValues" h = (Ret previous, h) ->
  get_elem previous (VStr f) h = (Ret prev, h) ->
  let result :=
    call (S fuel) IsImmutable this [value_; validatorArgs; VStr f; modelInstance] h in
  (result = (Ret (VBool true), h) <-> strict_equals cur prev = true) /\
  (result = (Ret (VBool false), h) <-> strict_equals cur prev = false).
Proof.
  intros Hnew Hfalsy Hdv Hcur Hpv Hprev result.
  assert (result = (Ret (VBool (strict_equals cur prev)), h)) as ->.
  { subst result. simpl. unfold Ext.isImmutable, arg, bind. simpl.
    by rewrite Hnew, Hfalsy, Hdv, Hcur, Hpv, Hprev. }
  split; split; try congruence; by intros ->.
Qed.

(** C3: [notIn(x, values)] is the logical negation of
    [this.isIn(x, values)]: it returns [!r] when [isIn] returns [r],
    from the same heap and with the same effects, and fails as [isIn]
    fails. *)
Theorem notIn_negates_isIn (fuel : nat) (h : heap) (this x values : value) :
  call (S fuel) NotIn this [x; values] h
    = map_outcome js_not (invoke fuel this "isIn" [x; values] h)
  /\ forall r h',
       invoke fuel this "isIn" [x; values] h = (Ret r, h') ->
       call (S fuel) NotIn this [x; values] h = (Ret (VBool (negb (truthy r))), h').
Proof.
  assert (call (S fuel) NotIn this [x; values] h
          = map_outcome js_not (invoke fuel this "isIn" [x; values] h)) as E.
  { simpl. unfold Ext.notIn, invoke, arg, bind. simpl.
    by destruct (invoke_with (call fuel) this "isIn" [x; values] h) as [[r|e|] h']. }
  split; [done|]. intros r h' Hr. by rewrite E, Hr.
Qed.

(** C4: when [this.regex] is the module's [regex], [notRegex] returns
    the negation of what [regex] returns for the same string, pattern
    and modifiers, from the same heap: exactly one of the two results
    is truthy. *)
Theorem notRegex_negates_regex (fuel : nat) (h : heap)
    (this str pattern modifiers : value) :
  get_prop this "regex" h = (Ret (VFun Regex), h) ->
  call (S (S fuel)) NotRegex this [str; pattern; modifiers] h
    = map_outcome js_not (call (S fuel) Regex this [str; pattern; modifiers] h)
  /\ forall r h',
       call (S fuel) Regex this [str; pattern; modifiers] h = (Ret r, h') ->
       exists r',
         call (S (S fuel)) NotRegex this [str; pattern; modifiers] h = (Ret r', h')
         /\ truthy r' = negb (truthy r).
Proof.
  intros Hregex.
  assert (call (S (S fuel)) NotRegex this [str; pattern; modifiers] h
          = map_outcome js_not (call (S fuel) Regex this [str; pattern; modifiers] h)) as E.
  { change (call (S (S fuel)) NotRegex this [str; pattern; modifiers] h)
      with (Ext.notRegex (invoke_with (call (S fuel))) this str pattern modifiers h).
    unfold Ext.notRegex, invoke_with, bind. rewrite Hregex.
    by destruct (call (S fuel) Regex this [str; pattern; modifiers] h) as [[r|e|] h']. }
  split; [done|]. intros r h' Hr. exists (js_not r). by rewrite E, Hr.
Qed.

(** C8: when [Number.parseFloat] of the input is NaN, [min] and [max]
    both return [true], whatever the bound. *)
Theorem min_max_non_numeric (fuel : nat) (h : heap) (this val : value) (s : string) :
  isNaN (host_parseFloat s) = true ->
  call (S fuel) Min this [VStr s; val] h = (Ret (VBool true), h) /\
  call (S fuel) Max this [VStr s; val] h = (Ret (VBool true), h).
Proof.
  intros Hnan. simpl. unfold Ext.min, Ext.max, arg, bind, ret. simpl.
  by rewrite Hnan.
Qed.

Lemma str_includes_empty (s : string) : str_includes s "" = true.
Proof. by destruct s. Qed.

(** C9: [contains(str, elem)] returns [false] as soon as [elem] is
    falsy, for every [str]; the empty string is falsy although every
    string includes it; and so [notContains(str, "")] returns [true]
    for every [str] (with [this.contains] the module's [contains]). *)
Theorem contains_falsy_elem (fuel : nat) (h : heap) (this str : value) :
  (forall elem, truthy elem = false ->
     call (S fuel) Contains this [str; elem] h = (Ret (VBool false), h)) /\
  truthy (VStr "") = false /\
  (forall s, str_includes s "" = true) /\
  (get_prop this "contains" h = (Ret (VFun Contains), h) ->
   call (S (S fuel)) NotContains this [str; VStr ""] h = (Ret (VBool true), h)).
Proof.
  split; [|split; [done|split; [apply str_includes_empty|]]].
  - intros elem Hfalsy. simpl. unfold Ext.contains, arg. simpl. by rewrite Hfalsy.
  - intros Hcontains.
    change (call (S (S fuel)) NotContains this [str; VStr ""] h)
      with (Ext.notContains (invoke_with (call (S fuel))) this str (VStr "") h).
    unfold Ext.notContains, invoke_with, bind. by rewrite Hcontains.
Qed.

(** [isDate] on a string, step by step. *)
Lemma isDate_run (fuel : nat) (h : heap) (this : value) (s : string) :
  call (S fuel) IsDate this [VStr s] h
  = if isNaN (host_Date_parse s) then (Ret (VBool false), h)
    else (let* iso := host_Date_toISOString (host_Date_parse s) in
          let* ok := host_moment_isValid iso in
          ret (VBool ok)) h.
Proof.
  simpl. unfold Ext.isDate, arg. simpl. unfold bind at 1, ret at 1.
  by destruct (isNaN (host_Date_parse s)).
Qed.

(** C6: when [Date.parse] of the input is NaN, [isDate] returns [false]. *)
Theorem isDate_unparsable (fuel : nat) (h : heap) (this : value) (s : string) :
  isNaN (host_Date_parse s) = true ->
  call (S fuel) IsDate this [VStr s] h = (Ret (VBool false), h).
Proof.
  intros Hnan. rewrite isDate_run. by rewrite Hnan.
Qed.

(** C7: in an engine where [Date.parse("2024-01-01")] is midnight UTC
    of that day, [toISOString] prints it as ISO 8601 and moment accepts
    that string, and where [Date.parse("not-a-date")] is NaN,
    [isDate("2024-01-01")] returns [true] and [isDate("not-a-date")]
    returns [false]. *)
Theorem isDate_examples (fuel : nat) (h : heap) (this : value) :
  host_Date_parse "2024-01-01" = num_of_Z 1704067200000 ->
  host_Date_toISOString (num_of_Z 1704067200000) h
    = (Ret "2024-01-01T00:00:00.000Z", h) ->
  host_moment_isValid "2024-01-01T00:00:00.000Z" h = (Ret true, h) ->
  host_Date_parse "not-a-date" = NaN ->
  call (S fuel) IsDate this [VStr "2024-01-01"] h = (Ret (VBool true), h) /\
  call (S fuel) IsDate this [VStr "not-a-date"] h = (Ret (VBool false), h).
Proof.
  intros Hparse Hiso Hvalid Hnan. split.
  - rewrite isDate_run, Hparse.
    change (isNaN (num_of_Z 1704067200000)) with false. cbv iota.
    unfold bind. by rewrite Hiso, Hvalid.
  - rewrite isDate_run, Hnan. done.
Qed.

End Predicates.

(** ** Property lists *)

Lemma has_prop_assign (k a : string) (v : value) (ps : list (string * value)) :
  has_prop k (assign_prop a v ps) = String.eqb k a || has_prop k ps.
Proof.
  induction ps as [|[k0 v0] ps IH]; simpl.
  - by destruct (String.eqb k a).
  - destruct (String.eqb a k0) eqn:E; simpl.
    + apply String.eqb_eq in E as ->.
      by destruct (String.eqb k k0).
    + rewrite IH. destruct (String.eqb k k0); [|done].
      by rewrite orb_true_r.
Qed.

Lemma lookup_assign (k a : string) (v : value) (ps : list (string * value)) :
  lookup_prop k (assign_prop a v ps)
  = if String.eqb k a then v else lookup_prop k ps.
Proof.
  induction ps as [|[k0 v0] ps IH]; simpl.
  - done.
  - destruct (String.eqb a k0) eqn:E; simpl.
    + apply String.eqb_eq in E as ->.
      by destruct (String.eqb k k0).
    + rewrite IH. destruct (String.eqb k k0) eqn:E0; [|done].
      apply String.eqb_eq in E0 as ->.
      by rewrite String.eqb_sym, E.
Qed.

Lemma lookup_assign_all (k : string) (kvs ps : list (string * value)) :
  lookup_prop k (assign_all kvs ps) = last_assigned k kvs (lookup_prop k ps).
Proof.
  revert ps. induction kvs as [|[a v] kvs IH]; intros ps; [done|].
  unfold assign_all, last_assigned in *. simpl. by rewrite IH, lookup_assign.
Qed.

Lemma has_assign_all (k : string) (kvs ps : list (string * value)) :
  has_prop k (assign_all kvs ps) = assigned k kvs (has_prop k ps).
Proof.
  revert ps. induction kvs as [|[a v] kvs IH]; intros ps; [done|].
  unfold assign_all, assigned in *. simpl. by rewrite IH, has_prop_assign.
Qed.

Lemma assigned_true (k : string) (kvs : list (string * value)) :
  assigned k kvs true = true.
Proof.
  induction kvs as [|[a v] kvs IH]; [done|].
  unfold assigned in *. simpl. by rewrite orb_true_r.
Qed.

(** ** Heaps: frames and growth *)

Lemma frame_refl (h : heap) : frame h h.
Proof. by intros l _. Qed.

Lemma frame_insert (h0 h : heap) (l : loc) (o : obj) :
  frame h0 h -> h0 !! l = None -> frame h0 (<[l := o]> h).
Proof.
  intros Hf Hl l' Hl'. rewrite lookup_insert_ne; [by apply Hf|].
  intros ->. rewrite Hl in Hl'. by destruct Hl'.
Qed.

Lemma grows_refl (h : heap) : grows h h.
Proof. intros l o Hl. by exists o. Qed.

Lemma grows_trans (h1 h2 h3 : heap) : grows h1 h2 -> grows h2 h3 -> grows h1 h3.
Proof.
  intros H12 H23 l o Hl.
  destruct (H12 l o Hl) as (o2 & Hl2 & Ht2 & Hk2).
  destruct (H23 l o2 Hl2) as (o3 & Hl3 & Ht3 & Hk3).
  exists o3. split; [done|]. split; [congruence|]. auto.
Qed.

Lemma grows_alloc (h : heap) (l : loc) (o : obj) :
  h !! l = None -> grows h (<[l := o]> h).
Proof.
  intros Hl l' o' Hl'. exists o'. rewrite lookup_insert_ne; [done|].
  intros ->. congruence.
Qed.

Lemma grows_assign (h : heap) (l : loc) (o : obj) (k : string) (v : value) :
  h !! l = Some o ->
  grows h (<[l := mkObj (obj_tag o) (assign_prop k v (obj_props o))]> h).
Proof.
  intros Hl l' o' Hl'. destruct (decide (l = l')) as [<-|Hne].
  - rewrite lookup_insert_eq. eexists. split; [done|].
    assert (o' = o) as -> by congruence. split; [done|].
    intros k' Hk'. simpl. rewrite has_prop_assign, Hk'. apply orb_true_r.
  - exists o'. by rewrite lookup_insert_ne.
Qed.

Lemma fresh_loc_unused (h : heap) : h !! fresh (dom h) = None.
Proof. apply not_elem_of_dom. apply is_fresh. Qed.

Lemma heap_closed_lookup (h : heap) (l : loc) (o : obj) :
  heap_closed h = true -> h !! l = Some o ->
  Forall (fun p => value_in h (snd p) = true) (obj_props o).
Proof.
  unfold heap_closed. rewrite forallb_forall. intros Hc Hl.
  specialize (Hc (l, o)). simpl in Hc. rewrite forallb_forall in Hc.
  apply Forall_forall. intros p Hp. apply Hc.
  - apply list_elem_of_In. by apply elem_of_map_to_list.
  - by apply list_elem_of_In.
Qed.

(** ** [cloneDeep] returns, and leaves what exists alone *)

Section CloneDeep.
Context {host : Host}.
Variable h0 : heap.

Lemma unvisited_mono (s1 s2 : Lodash.memo) :
  dom s1 ⊆@{gset loc} dom s2 -> (unvisited h0 s2 <= unvisited h0 s1)%nat.
Proof.
  intros Hs. unfold unvisited. apply subseteq_size.
  intros x Hx. apply elem_of_difference in Hx as [Hx0 Hx2].
  apply elem_of_difference. split; [done|]. intros Hx1. by apply Hx2, Hs.
Qed.

Lemma unvisited_push (stack : Lodash.memo) (l r : loc) :
  is_Some (h0 !! l) -> stack !! l = None ->
  (unvisited h0 (<[l := r]> stack) < unvisited h0 stack)%nat.
Proof.
  intros Hl Hs. unfold unvisited. apply subset_size.
  apply elem_of_dom in Hl. apply not_elem_of_dom in Hs.
  rewrite dom_insert_L. split.
  - intros x Hx. apply elem_of_difference in Hx as [Hx0 Hx1].
    apply elem_of_difference. split; [done|]. intros Hx2. apply Hx1.
    apply elem_of_union. by right.
  - intros Hsub. assert (l ∈ dom h0 ∖ ({[l]} ∪ dom stack)) as Hin.
    { apply Hsub. by apply elem_of_difference. }
    apply elem_of_difference in Hin as [_ Hin]. apply Hin.
    apply elem_of_union. left. by apply elem_of_singleton.
Qed.

Lemma clone_props_total (n : nat) rec (result : loc) :
  clones_at h0 n rec -> h0 !! result = None ->
  forall ps stack h,
    Forall (fun p => value_in h0 (snd p) = true) ps ->
    frame h0 h -> is_Some (h !! result) -> (unvisited h0 stack < n)%nat ->
    exists stack' h',
      Lodash.clone_props rec result ps stack h = (Ret stack', h') /\
      frame h0 h' /\ grows h h' /\ dom stack ⊆@{gset loc} dom stack' /\
      forall k, has_prop k ps = true -> own h' result k = true.
Proof.
  intros Hrec Hres. induction ps as [|[key sub] ps IH]; intros stack h Hps Hf Hr Hn.
  - exists stack, h. simpl. repeat split; try done. apply grows_refl.
  - apply Forall_cons in Hps as [Hsub Hps]. simpl in Hsub.
    destruct (Hrec sub stack h Hf Hsub Hn) as (v' & s1 & h1 & E1 & Hf1 & Hg1 & Hd1).
    destruct Hr as [o Ho].
    destruct (Hg1 result o Ho) as (o1 & Ho1 & _ & _).
    set (h2 := <[result := mkObj (obj_tag o1) (assign_prop key v' (obj_props o1))]> h1).
    assert (grows h1 h2) as Hg2 by by apply grows_assign.
    destruct (IH s1 h2) as (s' & h' & E' & Hf' & Hg' & Hd' & Hk'); try done.
    + by apply frame_insert.
    + unfold h2. rewrite lookup_insert_eq. by eexists.
    + pose proof (unvisited_mono stack s1 Hd1). lia.
    + exists s', h'. split.
      * simpl. unfold bind at 1. rewrite E1. simpl.
        unfold bind at 1. unfold set_prop at 1. rewrite Ho1. exact E'.
      * split; [done|]. split; [by eauto using grows_trans|].
        split; [set_solver|].
        intros k. simpl. destruct (String.eqb k key) eqn:Ek; [|by apply Hk'].
        intros _. apply String.eqb_eq in Ek as ->.
        destruct (Hg' result (mkObj (obj_tag o1) (assign_prop key v' (obj_props o1))))
          as (o' & Ho' & _ & Hkeys).
        { unfold h2. by rewrite lookup_insert_eq. }
        unfold own. rewrite Ho'. apply Hkeys. simpl.
        by rewrite has_prop_assign, String.eqb_refl.
Qed.

Hypothesis h0_closed : heap_closed h0 = true.

Lemma baseClone_total (n : nat) : forall nested, clones_at h0 n (Lodash.baseClone n nested).
Proof.
  induction n as [|n IH]; intros nested v stack h Hf Hv Hn; [lia|].
  destruct v as [| |b|x|s|l|f]; simpl;
    try (eexists _, stack, h; repeat split; [done|apply grows_refl|done]).
  - (* an object *)
    simpl in Hv. apply bool_decide_eq_true in Hv.
    pose proof (Hf l Hv) as Hl. destruct Hv as [o Ho]. rewrite Ho in Hl.
    unfold bind at 1, get_heap. rewrite Hl.
    destruct (Lodash.cloneable (obj_tag o)).
    + destruct (stack !! l) as [stacked|] eqn:Hs.
      * eexists _, stack, h. repeat split; [done|apply grows_refl|done].
      * set (r := fresh (dom h)). set (h1 := <[r := mkObj (obj_tag o) []]> h).
        assert (h !! r = None) as Hr by apply fresh_loc_unused.
        assert (h0 !! r = None) as Hr0.
        { destruct (h0 !! r) eqn:E; [|done].
          rewrite <- (Hf r) in E by by eexists. congruence. }
        destruct (clone_props_total n (Lodash.baseClone n true) r (IH true) Hr0
                    (obj_props o) (<[l := r]> stack) h1)
          as (s' & h' & E' & Hf' & Hg' & Hd' & _).
        -- by apply (heap_closed_lookup h0 l).
        -- by apply frame_insert.
        -- unfold h1. rewrite lookup_insert_eq. by eexists.
        -- assert (unvisited h0 (<[l := r]> stack) < unvisited h0 stack)%nat
             by (apply unvisited_push; [by eexists|done]). lia.
        -- exists (VObj r), s', h'. split.
           ++ unfold bind at 1, alloc. fold r. fold h1. unfold bind at 1.
              by rewrite E'.
           ++ split; [done|]. split.
              ** eapply grows_trans; [|exact Hg']. by apply grows_alloc.
              ** rewrite dom_insert_L in Hd'. set_solver.
    + destruct nested.
      * eexists _, stack, h. repeat split; [done|apply grows_refl|done].
      * eexists _, stack, _. unfold bind, alloc. simpl. split; [done|].
        assert (h !! fresh (dom h) = None) as Hr by apply fresh_loc_unused.
        split; [|split; [by apply grows_alloc|done]].
        apply frame_insert; [done|].
        destruct (h0 !! fresh (dom h)) eqn:E; [|done].
        rewrite <- (Hf (fresh (dom h))) in E by by eexists. congruence.
  - (* a function *)
    destruct nested.
    + eexists _, stack, h. repeat split; [done|apply grows_refl|done].
    + eexists _, stack, _. unfold bind, alloc. simpl. split; [done|].
      assert (h !! fresh (dom h) = None) as Hr by apply fresh_loc_unused.
      split; [|split; [by apply grows_alloc|done]].
      apply frame_insert; [done|].
      destruct (h0 !! fresh (dom h)) eqn:E; [|done].
      rewrite <- (Hf (fresh (dom h))) in E by by eexists. congruence.
Qed.

End CloneDeep.

Section LoadModule.
Context {host : Host}.

(** [cloneDeep] of an object of a closed heap returns a new object of
    the same class with at least the keys of the source, and leaves
    every existing object as it was. *)
Lemma cloneDeep_object (h0 : heap) (s : loc) (o : obj) :
  heap_closed h0 = true -> h0 !! s = Some o ->
  Lodash.cloneable (obj_tag o) = true ->
  exists c oc h1,
    Lodash.cloneDeep (VObj s) h0 = (Ret (VObj c), h1) /\
    h0 !! c = None /\ frame h0 h1 /\ h1 !! c = Some oc /\
    obj_tag oc = obj_tag o /\
    forall k, has_prop k (obj_props o) = true -> has_prop k (obj_props oc) = true.
Proof.
  intros Hclosed Hs Hcl.
  set (c := fresh (dom h0)). set (h1 := <[c := mkObj (obj_tag o) []]> h0).
  assert (h0 !! c = None) as Hc by apply fresh_loc_unused.
  destruct (clone_props_total h0 (size h0) (Lodash.baseClone (size h0) true) c
              (baseClone_total h0 Hclosed (size h0) true) Hc
              (obj_props o) (<[s := c]> ∅) h1)
    as (s' & h' & E' & Hf' & Hg' & _ & Hk').
  - by apply (heap_closed_lookup h0 s).
  - apply frame_insert; [apply frame_refl|done].
  - unfold h1. rewrite lookup_insert_eq. by eexists.
  - assert (unvisited h0 (<[s := c]> ∅) < unvisited h0 ∅)%nat as Hlt
      by (apply unvisited_push; [by eexists|done]).
    assert (unvisited h0 ∅ = size h0) as Hsz.
    { unfold unvisited. rewrite dom_empty_L, difference_empty_L. apply size_dom. }
    lia.
  - destruct (Hg' c (mkObj (obj_tag o) [])) as (oc & Hoc & Htag & _).
    { unfold h1. by rewrite lookup_insert_eq. }
    exists c, oc, h'. split.
    + unfold Lodash.cloneDeep, bind at 1, get_heap.
      unfold bind at 1. simpl. unfold bind at 1, get_heap. rewrite Hs, Hcl.
      rewrite lookup_empty. unfold bind at 1, alloc. fold c. fold h1.
      unfold bind at 1. by rewrite E'.
    + repeat split; try done.
      intros k Hk. specialize (Hk' k Hk). unfold own in Hk'. by rewrite Hoc in Hk'.
Qed.

Lemma bind_ret {A B} (m : M A) (k : A -> M B) (h h' : heap) (a : A) :
  m h = (Ret a, h') -> bind m k h = k a h'.
Proof. intros E. unfold bind. by rewrite E. Qed.

Lemma set_prop_obj (h : heap) (l : loc) (o : obj) (k : string) (v : value) :
  h !! l = Some o ->
  set_prop (VObj l) k v h
  = (Ret tt, <[l := mkObj (obj_tag o) (assign_prop k v (obj_props o))]> h).
Proof. intros E. unfold set_prop. by rewrite E. Qed.

Lemma get_prop_own (h : heap) (l : loc) (o : obj) (k : string) :
  h !! l = Some o -> has_prop k (obj_props o) = true ->
  get_prop (VObj l) k h = (Ret (lookup_prop k (obj_props o)), h).
Proof. intros E Hk. unfold get_prop. by rewrite E, Hk. Qed.

Lemma extension_keys_own :
  Forall (fun k => has_prop k extensions_literal = true) (map fst extensions_literal).
Proof.
  cbv [map fst extensions_literal].
  repeat (apply Forall_cons; split; [vm_compute; reflexivity|]). apply Forall_nil_2.
Qed.

(** The loop of the module: every key of [e] is assigned on [c]. *)
Lemma forEach_keys_assign (e c : loc) (oe : obj) :
  e <> c ->
  forall keys h oc,
    h !! e = Some oe -> h !! c = Some oc ->
    Forall (fun k => has_prop k (obj_props oe) = true) keys ->
    Lodash.forEach_keys (VObj e) keys
      (fun extend key => set_elem (VObj c) (VStr key) extend) h
    = (Ret tt,
       <[c := mkObj (obj_tag oc)
                (fold_left (fun ps k => assign_prop k (lookup_prop k (obj_props oe)) ps)
                   keys (obj_props oc))]> h).
Proof.
  intros Hne. induction keys as [|k keys IH]; intros h oc He Hc Hkeys.
  - simpl. unfold ret. f_equal. symmetry. apply insert_id. by destruct oc.
  - apply Forall_cons in Hkeys as [Hk Hkeys]. simpl.
    erewrite bind_ret; [|by apply get_prop_own].
    erewrite bind_ret;
      [|unfold set_elem; erewrite bind_ret; [by apply set_prop_obj|done]].
    erewrite IH; [| |by rewrite lookup_insert_eq|done].
    + simpl. by rewrite insert_insert_eq.
    + by rewrite lookup_insert_ne.
Qed.

(** Loading the module in a closed heap where [require('validator')]
    is the object [s]: the exports are two new objects, what existed
    is unchanged, and the clone of [s] carries the patched properties. *)
Lemma module_init_spec (h0 : heap) (s : loc) (o : obj) :
  heap_closed h0 = true -> h0 !! s = Some o ->
  Lodash.cloneable (obj_tag o) = true ->
  has_prop "isEmpty" (obj_props o) = true ->
  exists c e oc h',
    module_init (VObj s) h0 = (Ret (VObj e, VObj c), h') /\
    h0 !! c = None /\ h0 !! e = None /\ frame h0 h' /\
    h' !! e = Some (mkObj TObject extensions_literal) /\
    h' !! c = Some (mkObj (obj_tag o) (patched (obj_props oc))) /\
    forall k, has_prop k (obj_props o) = true -> has_prop k (obj_props oc) = true.
Proof.
  intros Hclosed Hs Hcl Hempty.
  destruct (cloneDeep_object h0 s o Hclosed Hs Hcl)
    as (c & oc & h1 & Eclone & Hc0 & Hf1 & Hc1 & Htag & Hkeys).
  set (e := fresh (dom h1)).
  assert (h1 !! e = None) as He1 by apply fresh_loc_unused.
  assert (e <> c) as Hec by (intros E; congruence).
  assert (c <> e) as Hce by done.
  assert (h0 !! e = None) as He0.
  { destruct (h0 !! e) eqn:E; [|done].
    rewrite <- (Hf1 e) in E by by eexists. congruence. }
  set (lit := mkObj TObject extensions_literal).
  set (h2 := <[e := lit]> h1).
  set (p3 := assign_prop "isImmutable" (VFun IsImmutable) (obj_props oc)).
  set (h3 := <[c := mkObj (obj_tag oc) p3]> h2).
  set (p4 := assign_prop "notNull" (VFun NotNull) p3).
  set (h4 := <[c := mkObj (obj_tag oc) p4]> h3).
  set (p5 := fold_left (fun ps k => assign_prop k (lookup_prop k extensions_literal) ps)
               (map fst extensions_literal) p4).
  set (h5 := <[c := mkObj (obj_tag oc) p5]> h4).
  set (p6 := assign_prop "isNull" (lookup_prop "isEmpty" p5) p5).
  set (h6 := <[c := mkObj (obj_tag oc) p6]> h5).
  set (p7 := assign_prop "isDate" (VFun IsDate) p6).
  set (h7 := <[c := mkObj (obj_tag oc) p7]> h6).
  assert (h4 !! e = Some lit) as He4.
  { unfold h4, h3, h2. rewrite !lookup_insert_ne by done. apply lookup_insert_eq. }
  assert (has_prop "isEmpty" p5 = true) as Hempty5.
  { change p5 with (assign_all extensions_literal p4).
    rewrite has_assign_all. unfold p4, p3.
    rewrite !has_prop_assign, (Hkeys _ Hempty), !orb_true_r.
    apply assigned_true. }
  assert (set_prop (VObj c) "isImmutable" (VFun IsImmutable) h2 = (Ret tt, h3)) as E3.
  { apply (set_prop_obj h2 c oc). unfold h2. by rewrite lookup_insert_ne. }
  assert (set_prop (VObj c) "notNull" (VFun NotNull) h3 = (Ret tt, h4)) as E4.
  { apply (set_prop_obj h3 c (mkObj (obj_tag oc) p3)). apply lookup_insert_eq. }
  assert (Lodash.forEach (VObj e)
            (fun extend key => set_elem (VObj c) (VStr key) extend) h4
          = (Ret tt, h5)) as E5.
  { unfold Lodash.forEach. erewrite bind_ret; [|done]. rewrite He4.
    apply (forEach_keys_assign e c lit Hec _ h4 (mkObj (obj_tag oc) p4)).
    - done.
    - apply lookup_insert_eq.
    - exact extension_keys_own. }
  assert (get_prop (VObj c) "isEmpty" h5 = (Ret (lookup_prop "isEmpty" p5), h5)) as E6.
  { apply (get_prop_own h5 c (mkObj (obj_tag oc) p5)); [apply lookup_insert_eq|done]. }
  assert (set_prop (VObj c) "isNull" (lookup_prop "isEmpty" p5) h5 = (Ret tt, h6)) as E7.
  { apply (set_prop_obj h5 c (mkObj (obj_tag oc) p5)). apply lookup_insert_eq. }
  assert (set_prop (VObj c) "isDate" (VFun IsDate) h6 = (Ret tt, h7)) as E8.
  { apply (set_prop_obj h6 c (mkObj (obj_tag oc) p6)). apply lookup_insert_eq. }
  exists c, e, oc, h7. split.
  - unfold module_init.
    erewrite bind_ret; [|exact Eclone].
    erewrite bind_ret; [|unfold alloc; fold e; fold lit; fold h2; done].
    erewrite bind_ret; [|exact E3].
    erewrite bind_ret; [|exact E4].
    erewrite bind_ret; [|exact E5].
    erewrite bind_ret; [|exact E6].
    erewrite bind_ret; [|exact E7].
    erewrite bind_ret; [|exact E8].
    done.
  - split; [done|]. split; [done|]. split.
    { unfold h7, h6, h5, h4, h3, h2. by repeat apply frame_insert. }
    split.
    { unfold h7, h6, h5. rewrite !lookup_insert_ne by done. exact He4. }
    split; [|done].
    unfold h7. rewrite lookup_insert_eq, Htag. done.
Qed.

End LoadModule.

(** ** What the loaded module carries *)

Lemma patched_extension (ps : list (string * value)) (k : string) (f : fn) :
  In (k, VFun f) extensions_literal -> lookup_prop k (patched ps) = VFun f.
Proof.
  intros Hin. unfold patched. rewrite !lookup_assign_all.
  cbv [extensions_literal In] in Hin.
  repeat (destruct Hin as [E|Hin];
          [injection E as <- <-; vm_compute; reflexivity|]).
  destruct Hin.
Qed.

Lemma patched_overrides (ps : list (string * value)) :
  lookup_prop "isDate" (patched ps) = VFun IsDate /\
  lookup_prop "isImmutable" (patched ps) = VFun IsImmutable /\
  lookup_prop "notNull" (patched ps) = VFun NotNull.
Proof.
  unfold patched. rewrite !lookup_assign_all. repeat split; vm_compute; reflexivity.
Qed.

Lemma patched_has (ps : list (string * value)) (k : string) :
  has_prop k ps = true -> has_prop k (patched ps) = true.
Proof.
  intros Hk. unfold patched. rewrite !has_assign_all, Hk.
  by rewrite !assigned_true.
Qed.

Lemma patched_isNull (ps : list (string * value)) :
  lookup_prop "isNull" (patched ps) = lookup_prop "isEmpty" (patched ps) /\
  lookup_prop "isEmpty" (patched ps) = lookup_prop "isEmpty" ps /\
  has_prop "isNull" (patched ps) = true /\
  has_prop "notNull" (patched ps) = true.
Proof.
  unfold patched. rewrite !lookup_assign_all, !has_assign_all.
  repeat split; vm_compute; reflexivity.
Qed.

Lemma patched_has_extension (ps : list (string * value)) (k : string) (f : fn) :
  In (k, VFun f) extensions_literal -> has_prop k (patched ps) = true.
Proof.
  intros Hin. unfold patched. rewrite !has_assign_all.
  cbv [extensions_literal In] in Hin.
  repeat (destruct Hin as [E|Hin];
          [injection E as <- <-; vm_compute; reflexivity|]).
  destruct Hin.
Qed.

Section Loaded.
Context {host : Host}.

(** Once the module is loaded, every method named in [extensions] is
    found on [validator] as the module's function: this is what
    [this.regex] and [this.contains] resolve to. *)
Lemma loaded_methods (h0 : heap) (s : loc) (o : obj) :
  heap_closed h0 = true -> h0 !! s = Some o ->
  Lodash.cloneable (obj_tag o) = true ->
  has_prop "isEmpty" (obj_props o) = true ->
  exists e c h',
    module_init (VObj s) h0 = (Ret (VObj e, VObj c), h') /\
    forall k f, In (k, VFun f) extensions_literal ->
      get_prop (VObj c) k h' = (Ret (VFun f), h').
Proof.
  intros Hclosed Hs Hcl Hempty.
  destruct (module_init_spec h0 s o Hclosed Hs Hcl Hempty)
    as (c & e & oc & h' & E & _ & _ & _ & _ & Hc & _).
  exists e, c, h'. split; [done|]. intros k f Hin.
  rewrite <- (patched_extension (obj_props oc) k f Hin).
  apply (get_prop_own h' c _ k Hc). cbn [obj_props].
  by apply (patched_has_extension _ k f).
Qed.

(** C5, as the code has it: loading the module makes a clone of the
    library's module object and patches the clone.  The clone
    [validator] is a new object; it carries every extension, and the
    overridden [isDate] and [isImmutable]; the library's own module
    object, like every object that existed, is left as it was. *)
Theorem module_init_patches_clone (h0 : heap) (s : loc) (o : obj) :
  heap_closed h0 = true -> h0 !! s = Some o ->
  Lodash.cloneable (obj_tag o) = true ->
  has_prop "isEmpty" (obj_props o) = true ->
  exists e c h',
    module_init (VObj s) h0 = (Ret (VObj e, VObj c), h') /\
    c <> s /\ h0 !! c = None /\
    frame h0 h' /\ h' !! s = Some o /\
    (forall k f, In (k, VFun f) extensions_literal -> field h' c k = VFun f) /\
    field h' c "isDate" = VFun IsDate /\
    field h' c "isImmutable" = VFun IsImmutable.
Proof.
  intros Hclosed Hs Hcl Hempty.
  destruct (module_init_spec h0 s o Hclosed Hs Hcl Hempty)
    as (c & e & oc & h' & E & Hc0 & He0 & Hf & He & Hc & Hkeys).
  exists e, c, h'. split; [done|].
  split; [intros ->; congruence|]. split; [done|]. split; [done|].
  split; [rewrite Hf; [done|by eexists]|].
  unfold field. rewrite Hc. cbn [obj_props].
  split; [intros k f; apply patched_extension|].
  split; apply patched_overrides.
Qed.

(** C10: once the module is loaded, [validator.isNull] is the value
    of [validator.isEmpty], so calling one is calling the other;
    [validator.notNull] is the module's [notNull], which returns [true]
    exactly when its argument is neither [null] nor [undefined]. *)
Theorem isNull_is_isEmpty (h0 : heap) (s : loc) (o : obj) :
  heap_closed h0 = true -> h0 !! s = Some o ->
  Lodash.cloneable (obj_tag o) = true ->
  has_prop "isEmpty" (obj_props o) = true ->
  exists e c h',
    module_init (VObj s) h0 = (Ret (VObj e, VObj c), h') /\
    (exists v, get_prop (VObj c) "isNull" h' = (Ret v, h') /\
               get_prop (VObj c) "isEmpty" h' = (Ret v, h')) /\
    (forall fuel x,
       invoke fuel (VObj c) "isNull" [x] h' = invoke fuel (VObj c) "isEmpty" [x] h') /\
    get_prop (VObj c) "notNull" h' = (Ret (VFun NotNull), h') /\
    (forall fuel this x h,
       exists b, call (S fuel) NotNull this [x] h = (Ret (VBool b), h) /\
                 (b = true <-> x <> VNull /\ x <> VUndefined)).
Proof.
  intros Hclosed Hs Hcl Hempty.
  destruct (module_init_spec h0 s o Hclosed Hs Hcl Hempty)
    as (c & e & oc & h' & E & Hc0 & He0 & Hf & He & Hc & Hkeys).
  destruct (patched_isNull (obj_props oc)) as (Hsame & _ & HisNull & HnotNull).
  assert (get_prop (VObj c) "isNull" h'
          = (Ret (lookup_prop "isEmpty" (patched (obj_props oc))), h')) as EisNull.
  { rewrite <- Hsame. by apply (get_prop_own h' c _ "isNull" Hc). }
  assert (get_prop (VObj c) "isEmpty" h'
          = (Ret (lookup_prop "isEmpty" (patched (obj_props oc))), h')) as EisEmpty.
  { apply (get_prop_own h' c _ "isEmpty" Hc). cbn [obj_props]. apply patched_has. auto. }
  exists e, c, h'. split; [done|]. split; [by eexists|]. split.
  { intros fuel x. unfold invoke, invoke_with, bind. by rewrite EisNull, EisEmpty. }
  split.
  { destruct (patched_overrides (obj_props oc)) as (_ & _ & <-).
    by apply (get_prop_own h' c _ "notNull" Hc). }
  intros fuel this x h.
  exists (negb (strict_equals x VNull) && negb (strict_equals x VUndefined)). split.
  - simpl. unfold Ext.notNull, arg. simpl. by destruct x.
  - destruct x; simpl; split; try done; by intros [? ?].
Qed.

End Loaded.

(** ** The theorems at work on the reference engine *)

Lemma isImmutable_new_record_witness :
  @get_prop Engine.reference (VObj 4%positive) "isNewRecord" Examples.saved
    = (Ret (VBool true), Examples.saved) /\
  @call Engine.reference 1 IsImmutable VUndefined
    [VStr "b"; VBool true; VStr "name"; VObj 4%positive] Examples.saved
    = (Ret (VBool true), Examples.saved).
Proof.
  split; [reflexivity|].
  apply (@isImmutable_new_record Engine.reference 0 Examples.saved Examples.saved).
  reflexivity.
Defined.

Lemma isImmutable_existing_record_witness :
  let result :=
    @call Engine.reference 1 IsImmutable VUndefined
      [VStr "b"; VBool true; VStr "name"; VObj 1%positive] Examples.saved in
  (result = (Ret (VBool true), Examples.saved)
   <-> strict_equals (VStr "b") (VStr "a") = true) /\
  (result = (Ret (VBool false), Examples.saved)
   <-> strict_equals (VStr "b") (VStr "a") = false).
Proof.
  apply (@isImmutable_existing_record Engine.reference 0 Examples.saved VUndefined
           (VStr "b") (VBool true) (VObj 1%positive) "name"
           (VBool false) (VObj 2%positive) (VObj 3%positive) (VStr "b") (VStr "a"));
    reflexivity.
Defined.

Lemma notRegex_negates_regex_witness :
  @get_prop Engine.reference Examples.validator "regex" Examples.loaded
    = (Ret (VFun Regex), Examples.loaded) /\
  @call Engine.reference 2 NotRegex Examples.validator
    [VStr "hello world"; VStr "world"] Examples.loaded
  = map_outcome js_not
      (@call Engine.reference 1 Regex Examples.validator
         [VStr "hello world"; VStr "world"] Examples.loaded).
Proof.
  assert (@get_prop Engine.reference Examples.validator "regex" Examples.loaded
          = (Ret (VFun Regex), Examples.loaded)) as Hregex
    by (vm_compute; reflexivity).
  split; [exact Hregex|].
  exact (proj1 (@notRegex_negates_regex Engine.reference 0 Examples.loaded
                  Examples.validator (VStr "hello world") (VStr "world") VUndefined
                  Hregex)).
Defined.

Lemma min_max_non_numeric_witness :
  isNaN (Engine.parseFloat "abc") = true /\
  @call Engine.reference 1 Min VUndefined [VStr "abc"; VNum (num_of_Z 3)] ∅
    = (Ret (VBool true), ∅) /\
  @call Engine.reference 1 Max VUndefined [VStr "abc"; VNum (num_of_Z 3)] ∅
    = (Ret (VBool true), ∅).
Proof.
  split; [reflexivity|].
  apply (@min_max_non_numeric Engine.reference 0 ∅ VUndefined (VNum (num_of_Z 3)) "abc").
  reflexivity.
Defined.

Lemma contains_falsy_elem_witness :
  @call Engine.reference 1 Contains Examples.validator [VStr "abc"; VStr ""]
    Examples.loaded = (Ret (VBool false), Examples.loaded) /\
  @call Engine.reference 2 NotContains Examples.validator [VStr "abc"; VStr ""]
    Examples.loaded = (Ret (VBool true), Examples.loaded).
Proof.
  destruct (@contains_falsy_elem Engine.reference 0 Examples.loaded
              Examples.validator (VStr "abc")) as (Hfalsy & _ & _ & Hnot).
  split.
  - apply Hfalsy. reflexivity.
  - apply Hnot. vm_compute. reflexivity.
Defined.

Lemma isDate_unparsable_witness :
  isNaN (Engine.Date_parse "not-a-date") = true /\
  @call Engine.reference 1 IsDate VUndefined [VStr "not-a-date"] ∅
    = (Ret (VBool false), ∅).
Proof.
  split; [reflexivity|].
  apply (@isDate_unparsable Engine.reference 0 ∅ VUndefined "not-a-date").
  reflexivity.
Defined.

Lemma isDate_examples_witness :
  @call Engine.reference 1 IsDate VUndefined [VStr "2024-01-01"] ∅
    = (Ret (VBool true), ∅) /\
  @call Engine.reference 1 IsDate VUndefined [VStr "not-a-date"] ∅
    = (Ret (VBool false), ∅).
Proof.
  apply (@isDate_examples Engine.reference 0 ∅ VUndefined);
    vm_compute; reflexivity.
Defined.

Lemma module_init_patches_clone_witness :
  exists e c h',
    @module_init Engine.reference (VObj Examples.library) Examples.start
      = (Ret (VObj e, VObj c), h') /\
    c <> Examples.library /\ Examples.start !! c = None /\
    frame Examples.start h' /\
    h' !! Examples.library = Some Examples.library_module /\
    (forall k f, In (k, VFun f) extensions_literal -> field h' c k = VFun f) /\
    field h' c "isDate" = VFun IsDate /\
    field h' c "isImmutable" = VFun IsImmutable.
Proof.
  apply (@module_init_patches_clone Engine.reference Examples.start
           Examples.library Examples.library_module);
    vm_compute; reflexivity.
Defined.

Lemma isNull_is_isEmpty_witness :
  exists e c h',
    @module_init Engine.reference (VObj Examples.library) Examples.start
      = (Ret (VObj e, VObj c), h') /\
    forall fuel x,
      @invoke Engine.reference fuel (VObj c) "isNull" [x] h'
      = @invoke Engine.reference fuel (VObj c) "isEmpty" [x] h'.
Proof.
  assert (heap_closed Examples.start = true) as Hclosed by (vm_compute; reflexivity).
  assert (Examples.start !! Examples.library = Some Examples.library_module) as Hs
    by (vm_compute; reflexivity).
  destruct (@isNull_is_isEmpty Engine.reference Examples.start
              Examples.library Examples.library_module Hclosed Hs eq_refl eq_refl)
    as (e & c & h' & E & _ & Hsame & _).
  exists e, c, h'. split; [exact E|exact Hsame].
Defined.

(** C5, as stated, fails: after loading, the library's module object
    has no [notIn]. *)
Lemma shared_namespace_not_patched :
  ~ installs_on_shared Engine.reference Examples.start Examples.library.
Proof.
  intros (exports & h' & E & Hext & _).
  vm_compute in E. injection E as _ <-.
  specialize (Hext "notIn" NotIn). vm_compute in Hext.
  assert (VUndefined = VFun NotIn) as Habs; [|discriminate Habs].
  apply Hext. do 6 right. by left.
Qed.

(** On the reference engine, with the library's [isEmpty]:
    [isNull("")] is [true] and [isNull("a")] is [false]. *)
Example isNull_examples :
  @invoke Engine.reference 1 Examples.validator "isNull" [VStr ""] Examples.loaded
    = (Ret (VBool true), Examples.loaded) /\
  @invoke Engine.reference 1 Examples.validator "isNull" [VStr "a"] Examples.loaded
    = (Ret (VBool false), Examples.loaded).
Proof. split; vm_compute; reflexivity. Qed.

Example notIn_example :
  let h := <[9%positive := mkObj TArray [("0", VStr "a"); ("1", VStr "b")]]> Examples.loaded in
  @invoke Engine.reference 2 Examples.validator "notIn" [VStr "a"; VObj 9%positive] h
    = (Ret (VBool false), h) /\
  @invoke Engine.reference 2 Examples.validator "notIn" [VStr "c"; VObj 9%positive] h
    = (Ret (VBool true), h).
Proof. split; vm_compute; reflexivity. Qed.

Example min_examples :
  @call Engine.reference 1 Min VUndefined [VStr "5.5"; VNum (num_of_Z 3)] ∅
    = (Ret (VBool true), ∅) /\
  @call Engine.reference 1 Min VUndefined [VStr "2.5"; VNum (num_of_Z 3)] ∅
    = (Ret (VBool false), ∅) /\
  @call Engine.reference 1 Max VUndefined [VStr "2.5"; VNum (num_of_Z 3)] ∅
    = (Ret (VBool true), ∅).
Proof. repeat split; vm_compute; reflexivity. Qed.

(** ** More on the methods of [extensions] *)

Lemma SFcompare_None (a b : number) :
  SFcompare a b = None <-> isNaN a = true \/ isNaN b = true.
Proof.
  destruct a as [s|s| |s m e], b as [s'|s'| |s' m' e']; simpl;
    split; try done; try (intros [?|?]; done); auto.
Qed.

Section Methods.
Context {host : Host}.



(** X3: [notIn] looks [isIn] up when it runs: once
    [extend("isIn", g)] has replaced it, [notIn] negates [g]. *)
Theorem extend_rebinds_isIn (fuel : nat) (h : heap) (l : loc) (o : obj) (g : fn) :
  h !! l = Some o ->
  exists h',
    call (S fuel) Extend (VObj l) [VStr "isIn"; VFun g] h = (Ret (VObj l), h') /\
    forall fuel' x values,
      call (S (S fuel')) NotIn (VObj l) [x; values] h'
      = map_outcome js_not (call (S fuel') g (VObj l) [x; values] h').
Proof.
  intros Hl.
  exists (<[l := mkObj (obj_tag o) (assign_prop "isIn" (VFun g) (obj_props o))]> h).
  split.
  - simpl. unfold Ext.extend, arg, set_elem. simpl.
    unfold bind at 1. unfold bind at 1. unfold ret at 1.
    by rewrite (set_prop_obj h l o "isIn" (VFun g) Hl).
  - intros fuel' x values.
    change (call (S (S fuel')) NotIn (VObj l) [x; values])
      with (Ext.notIn (invoke_with (call (S fuel'))) (VObj l) x values).
    unfold Ext.notIn, invoke_with. unfold bind at 1. unfold bind at 1.
    erewrite get_prop_own; [|apply lookup_insert_eq|].
    + cbn [obj_props]. rewrite lookup_assign, String.eqb_refl.
      by destruct (call (S fuel') g (VObj l) [x; values] _) as [[r|e|] h'].
    + cbn [obj_props]. by rewrite has_prop_assign, String.eqb_refl.
Qed.

(** X4: [notEmpty], [regex], [isDecimal], [min], [max], [contains],
    [isImmutable], [notNull] and [isDate] never look at [this]: they
    give the same result on every receiver, so they can be called
    detached from [validator]. *)
Theorem this_free_any_receiver (fuel : nat) (f : fn) (this this' : value)
    (args : list value) (h : heap) :
  this_free f = true ->
  call fuel f this args h = call fuel f this' args h.
Proof.
  intros Hf. destruct fuel as [|n]; [done|].
  by destruct f.
Qed.

(** X5: the methods that go through [this] ([extend], [len], [isUrl],
    [isIPv6], [isIPv4], [notIn], [notRegex], [not], [notContains],
    [is]) raise a TypeError when called without a receiver. *)
Theorem needs_this_detached (fuel : nat) (f : fn) (this : value)
    (args : list value) (h : heap) :
  needs_this f = true -> this = VUndefined \/ this = VNull ->
  call (S fuel) f this args h = (Throw TypeError, h).
Proof.
  intros Hf [-> | ->]; by destruct f.
Qed.


(** X7: called without a bound, [min] and [max] compare with
    [undefined], that is with NaN: they return [true] exactly when the
    input is not numeric. *)
Theorem min_max_without_bound (fuel : nat) (h : heap) (this : value) (s : string) :
  call (S fuel) Min this [VStr s] h = (Ret (VBool (isNaN (host_parseFloat s))), h) /\
  call (S fuel) Max this [VStr s] h = (Ret (VBool (isNaN (host_parseFloat s))), h).
Proof.
  simpl. unfold Ext.min, Ext.max, arg, bind, ret. simpl.
  destruct (isNaN (host_parseFloat s)) eqn:E; [done|].
  unfold num_ge, num_le.
  assert (SFcompare (host_parseFloat s) NaN = None) as ->
    by (apply SFcompare_None; by right).
  done.
Qed.

(** X8: when the pattern already is a RegExp, [regex] uses it as it is:
    no RegExp is built and the modifiers are ignored. *)
Theorem regex_keeps_RegExp (fuel : nat) (h : heap) (this pattern : value)
    (s : string) :
  class_of h pattern = "RegExp" ->
  forall modifiers,
    call (S fuel) Regex this [VStr s; pattern; modifiers] h
    = host_String_match s pattern h.
Proof.
  intros Hre modifiers. simpl. unfold Ext.regex, arg. simpl.
  unfold bind at 1, ret at 1. unfold bind at 1, get_heap.
  rewrite Hre. simpl. unfold bind, ret.
  by destruct (host_String_match s pattern h) as [[r|e|] h'].
Qed.

(** X9: with [this.regex] and [this.notRegex] the module's, [is] is
    [regex] and [not] is its negation; when [regex] raises (an invalid
    pattern), [is], [notRegex] and [not] raise the same exception
    instead of returning a verdict. *)
Theorem is_not_aliases (fuel : nat) (h : heap) (this str pattern modifiers : value) :
  get_prop this "regex" h = (Ret (VFun Regex), h) ->
  get_prop this "notRegex" h = (Ret (VFun NotRegex), h) ->
  let run f n := call n f this [str; pattern; modifiers] h in
  run Is (S (S fuel)) = run Regex (S fuel) /\
  run Not (S (S (S fuel))) = map_outcome js_not (run Regex (S fuel)) /\
  forall e h', run Regex (S fuel) = (Throw e, h') ->
    run Is (S (S fuel)) = (Throw e, h') /\
    run NotRegex (S (S fuel)) = (Throw e, h') /\
    run Not (S (S (S fuel))) = (Throw e, h').
Proof.
  intros Hregex HnotRegex run.
  assert (run Is (S (S fuel)) = run Regex (S fuel)) as EIs.
  { unfold run.
    change (call (S (S fuel)) Is this [str; pattern; modifiers] h)
      with (Ext.is_ (invoke_with (call (S fuel))) this str pattern modifiers h).
    unfold Ext.is_, invoke_with, bind. by rewrite Hregex. }
  assert (run NotRegex (S (S fuel)) = map_outcome js_not (run Regex (S fuel))) as ENotRegex.
  { unfold run.
    change (call (S (S fuel)) NotRegex this [str; pattern; modifiers] h)
      with (Ext.notRegex (invoke_with (call (S fuel))) this str pattern modifiers h).
    unfold Ext.notRegex, invoke_with, bind. rewrite Hregex.
    by destruct (call (S fuel) Regex this [str; pattern; modifiers] h) as [[r|e|] h']. }
  assert (run Not (S (S (S fuel))) = run NotRegex (S (S fuel))) as ENot.
  { unfold run.
    change (call (S (S (S fuel))) Not this [str; pattern; modifiers] h)
      with (Ext.not_ (invoke_with (call (S (S fuel)))) this str pattern modifiers h).
    unfold Ext.not_, invoke_with, bind. by rewrite HnotRegex. }
  split; [done|]. split; [by rewrite ENot|].
  intros e h' He. rewrite ENot, ENotRegex, EIs, He. done.
Qed.

End Methods.

(** ** More on [isImmutable] and [contains] *)

Lemma append_cons (c : ascii) (t q : string) :
  (String c t ++ q)%string = String c (t ++ q).
Proof. reflexivity. Qed.

Lemma append_empty (q : string) : (EmptyString ++ q)%string = q.
Proof. reflexivity. Qed.

Lemma append_empty_r (q : string) : (q ++ EmptyString)%string = q.
Proof. induction q as [|c q IH]; [done|]. by rewrite append_cons, IH. Qed.

Lemma prefix_spec (t s : string) :
  String.prefix t s = true <-> exists q, s = (t ++ q)%string.
Proof.
  revert s. induction t as [|a t IH]; intros s.
  - split; [intros _; by exists s|by destruct s].
  - destruct s as [|b s]; simpl.
    + split; [done|]. intros [q Hq]. by rewrite append_cons in Hq.
    + destruct (ascii_dec a b) as [->|Hne].
      * rewrite IH. split; intros [q Hq]; exists q.
        -- by rewrite append_cons, Hq.
        -- rewrite append_cons in Hq. congruence.
      * split; [done|]. intros [q Hq]. rewrite append_cons in Hq. congruence.
Qed.

Lemma str_includes_cons (c : ascii) (s t : string) :
  str_includes (String c s) t
  = if String.prefix t (String c s) then true else str_includes s t.
Proof. reflexivity. Qed.

(** [str_includes s t] says that [t] occurs in [s]. *)
Lemma str_includes_spec (s t : string) :
  str_includes s t = true <-> exists p q, s = (p ++ t ++ q)%string.
Proof.
  split.
  - induction s as [|c s IH].
    + destruct t; [|done]. intros _. by exists EmptyString, EmptyString.
    + rewrite str_includes_cons.
      destruct (String.prefix t (String c s)) eqn:E.
      * intros _. apply prefix_spec in E as [q Hq]. by exists EmptyString, q.
      * intros Hs. destruct (IH Hs) as (p & q & ->). by exists (String c p), q.
  - intros (p & q & ->). induction p as [|c p IH].
    + rewrite append_empty.
      assert (String.prefix t (t ++ q) = true) as E
        by (apply prefix_spec; by exists q).
      destruct (t ++ q)%string as [|c r] eqn:Er.
      * by destruct t.
      * by rewrite str_includes_cons, E.
    + rewrite append_cons, str_includes_cons.
      by destruct (String.prefix t (String c (p ++ t ++ q))).
Qed.

Section Records.
Context {host : Host}.

(** [isImmutable] on an existing record, step by step. *)
Lemma isImmutable_run (fuel : nat) (h : heap)
    (this value_ validatorArgs modelInstance : value) (f : string)
    (isNewRecord dataValues previous cur prev : value) :
  get_prop modelInstance "isNewRecord" h = (Ret isNewRecord, h) ->
  truthy isNewRecord = false ->
  get_prop modelInstance "dataValues" h = (Ret dataValues, h) ->
  get_elem dataValues (VStr f) h = (Ret cur, h) ->
  get_prop modelInstance "_previousDataValues" h = (Ret previous, h) ->
  get_elem previous (VStr f) h = (Ret prev, h) ->
  call (S fuel) IsImmutable this [value_; validatorArgs; VStr f; modelInstance] h
  = (Ret (VBool (strict_equals cur prev)), h).
Proof.
  intros Hnew Hfalsy Hdv Hcur Hpv Hprev.
  simpl. unfold Ext.isImmutable, arg, bind. simpl.
  by rewrite Hnew, Hfalsy, Hdv, Hcur, Hpv, Hprev.
Qed.

(** X10: on an existing record, a field whose current value is NaN
    never passes [isImmutable], not even when the previous value is NaN
    too. *)
Theorem isImmutable_NaN_fails (fuel : nat) (h : heap)
    (this value_ validatorArgs modelInstance : value) (f : string)
    (isNewRecord dataValues previous prev : value) :
  get_prop modelInstance "isNewRecord" h = (Ret isNewRecord, h) ->
  truthy isNewRecord = false ->
  get_prop modelInstance "dataValues" h = (Ret dataValues, h) ->
  get_elem dataValues (VStr f) h = (Ret (VNum NaN), h) ->
  get_prop modelInstance "_previousDataValues" h = (Ret previous, h) ->
  get_elem previous (VStr f) h = (Ret prev, h) ->
  call (S fuel) IsImmutable this [value_; validatorArgs; VStr f; modelInstance] h
  = (Ret (VBool false), h).
Proof.
  intros Hnew Hfalsy Hdv Hcur Hpv Hprev.
  rewrite (isImmutable_run fuel h this value_ validatorArgs modelInstance f
             isNewRecord dataValues previous (VNum NaN) prev); try done.
  by rewrite strict_equals_NaN.
Qed.

(** X11: on an existing record, a field that reads the same value in
    [dataValues] and in [_previousDataValues] passes [isImmutable],
    unless that value is NaN. *)
Theorem isImmutable_unchanged_passes (fuel : nat) (h : heap)
    (this value_ validatorArgs modelInstance : value) (f : string)
    (isNewRecord dataValues previous v : value) :
  get_prop modelInstance "isNewRecord" h = (Ret isNewRecord, h) ->
  truthy isNewRecord = false ->
  get_prop modelInstance "dataValues" h = (Ret dataValues, h) ->
  get_elem dataValues (VStr f) h = (Ret v, h) ->
  get_prop modelInstance "_previousDataValues" h = (Ret previous, h) ->
  get_elem previous (VStr f) h = (Ret v, h) ->
  v <> VNum NaN ->
  call (S fuel) IsImmutable this [value_; validatorArgs; VStr f; modelInstance] h
  = (Ret (VBool true), h).
Proof.
  intros Hnew Hfalsy Hdv Hcur Hpv Hprev Hv.
  rewrite (isImmutable_run fuel h this value_ validatorArgs modelInstance f
             isNewRecord dataValues previous v v); try done.
  by rewrite strict_equals_refl.
Qed.

(** X12: object values are compared by identity: on an existing
    record, a field that holds one object now and held another object
    before fails [isImmutable], even when the two objects have the same
    class and the same properties. *)
Theorem isImmutable_distinct_objects_fail (fuel : nat) (h : heap)
    (this value_ validatorArgs modelInstance : value) (f : string)
    (isNewRecord dataValues previous : value) (a b : loc) (o : obj) :
  get_prop modelInstance "isNewRecord" h = (Ret isNewRecord, h) ->
  truthy isNewRecord = false ->
  get_prop modelInstance "dataValues" h = (Ret dataValues, h) ->
  get_elem dataValues (VStr f) h = (Ret (VObj a), h) ->
  get_prop modelInstance "_previousDataValues" h = (Ret previous, h) ->
  get_elem previous (VStr f) h = (Ret (VObj b), h) ->
  h !! a = Some o -> h !! b = Some o -> a <> b ->
  call (S fuel) IsImmutable this [value_; validatorArgs; VStr f; modelInstance] h
  = (Ret (VBool false), h).
Proof.
  intros Hnew Hfalsy Hdv Hcur Hpv Hprev _ _ Hab.
  rewrite (isImmutable_run fuel h this value_ validatorArgs modelInstance f
             isNewRecord dataValues previous (VObj a) (VObj b)); try done.
  simpl. by apply Pos.eqb_neq in Hab as ->.
Qed.

(** X13: [isImmutable] needs the model instance, its fourth argument:
    called with fewer arguments, or with [null] there, it raises a
    TypeError. *)
Theorem isImmutable_needs_instance (fuel : nat) (h : heap) (this : value)
    (args : list value) :
  arg 3 args = VUndefined \/ arg 3 args = VNull ->
  call (S fuel) IsImmutable this args h = (Throw TypeError, h).
Proof.
  intros Hargs. simpl. unfold Ext.isImmutable, bind.
  by destruct Hargs as [-> | ->].
Qed.

(** X14: on two strings, the second not empty, [contains] says
    whether the second occurs in the first, and [notContains] (with
    [this.contains] the module's) says the opposite. *)
Theorem contains_substring (fuel : nat) (h : heap) (this : value) (s t : string) :
  t <> ""%string ->
  exists b,
    call (S fuel) Contains this [VStr s; VStr t] h = (Ret (VBool b), h) /\
    (b = true <-> exists p q, s = (p ++ t ++ q)%string) /\
    (get_prop this "contains" h = (Ret (VFun Contains), h) ->
     call (S (S fuel)) NotContains this [VStr s; VStr t] h = (Ret (VBool (negb b)), h)).
Proof.
  intros Ht.
  assert (call (S fuel) Contains this [VStr s; VStr t] h
          = (Ret (VBool (str_includes s t)), h)) as E.
  { simpl. unfold Ext.contains, arg. simpl.
    apply String.eqb_neq in Ht as ->. done. }
  exists (str_includes s t). split; [done|]. split; [apply str_includes_spec|].
  intros Hcontains.
  change (call (S (S fuel)) NotContains this [VStr s; VStr t] h)
    with (Ext.notContains (invoke_with (call (S fuel))) this (VStr s) (VStr t) h).
  unfold Ext.notContains, invoke_with, bind. by rewrite Hcontains, E.
Qed.

(** X15: [contains] hands [elem] to [String.prototype.includes], which
    refuses a RegExp: on a string and a RegExp, [contains] raises a
    TypeError, and so does [notContains]. *)
Theorem contains_RegExp_raises (fuel : nat) (h : heap) (this elem : value) (s : string) :
  class_of h elem = "RegExp" ->
  call (S fuel) Contains this [VStr s; elem] h = (Throw TypeError, h) /\
  (get_prop this "contains" h = (Ret (VFun Contains), h) ->
   call (S (S fuel)) NotContains this [VStr s; elem] h = (Throw TypeError, h)).
Proof.
  intros Hre.
  assert (call (S fuel) Contains this [VStr s; elem] h = (Throw TypeError, h)) as E.
  { destruct elem as [| |b|n|x|l|f]; try done.
    change (call (S fuel) Contains this [VStr s; VObj l] h)
      with (call_includes (invoke_with (call fuel)) (VStr s) (VObj l) h).
    unfold call_includes, bind, get_heap. by rewrite Hre. }
  split; [done|]. intros Hcontains.
  change (call (S (S fuel)) NotContains this [VStr s; elem] h)
    with (Ext.notContains (invoke_with (call (S fuel))) this (VStr s) elem h).
  unfold Ext.notContains, invoke_with, bind. by rewrite Hcontains, E.
Qed.

End Records.

(** ** What [cloneDeep] copies *)

Lemma bind_inv {A B} (m : M A) (k : A -> M B) (h h' : heap) (b : B) :
  bind m k h = (Ret b, h') ->
  exists a h1, m h = (Ret a, h1) /\ k a h1 = (Ret b, h').
Proof.
  unfold bind. destruct (m h) as [[a|e|] h1]; try done. by exists a, h1.
Qed.

Lemma keeps_refl (h : heap) : keeps h h.
Proof. by intros l o. Qed.

Lemma keeps_alloc (h : heap) (o : obj) : keeps h (<[fresh (dom h) := o]> h).
Proof.
  intros l o' Hl. rewrite lookup_insert_ne; [done|].
  intros <-. by rewrite fresh_loc_unused in Hl.
Qed.

Section Copies.
Context {host : Host}.

Lemma clone_props_keeps rec (result : loc) :
  copies rec ->
  forall ps stack h t ps0 stack' h',
    h !! result = Some (mkObj t ps0) ->
    Lodash.clone_props rec result ps stack h = (Ret stack', h') ->
    exists kvs,
      h' !! result = Some (mkObj t (assign_all kvs ps0)) /\
      Forall2 (fun p q => fst q = fst p /\ cloned h stack (snd p) (snd q)) ps kvs /\
      (forall l o, l <> result -> h !! l = Some o -> h' !! l = Some o) /\
      stack ⊆ stack'.
Proof.
  intros Hrec. induction ps as [|[key sub] ps IH]; intros stack h t ps0 stack' h' Hres E.
  - unfold Lodash.clone_props, ret in E. injection E as <- <-.
    exists []. split; [done|]. split; [constructor|]. split; [done|reflexivity].
  - simpl in E.
    apply bind_inv in E as ([v' s1] & h1 & E1 & E).
    apply bind_inv in E as ([] & h2 & E2 & E). cbn [fst snd] in E2, E.
    destruct (Hrec _ _ _ _ _ _ E1) as (Hk1 & Hs1 & Hc1).
    pose proof (Hk1 _ _ Hres) as Hres1.
    rewrite (set_prop_obj h1 result _ key v' Hres1) in E2.
    injection E2 as <-. cbn [obj_tag obj_props fst snd] in E.
    destruct (IH s1 (<[result := mkObj t (assign_prop key v' ps0)]> h1) t
                (assign_prop key v' ps0) stack' h')
      as (kvs & Hr' & HF & Ho & Hs'); [apply lookup_insert_eq|exact E|].
    exists ((key, v') :: kvs). split; [exact Hr'|]. split; [|split].
    + apply Forall2_cons. split; [done|].
      eapply Forall2_impl; [exact HF|].
      intros [k v] [k' w] [Hfst Hcl]. split; [done|].
      destruct v as [| |b|n|x|l|f]; try done.
      intros o r Hl Hcb Hst. simpl in Hcl.
      destruct (decide (l = result)) as [->|Hne].
      * assert (o = mkObj t ps0) as -> by congruence.
        eapply Hcl; [apply lookup_insert_eq|exact Hcb|].
        by eapply lookup_weaken.
      * eapply Hcl; [|exact Hcb|by eapply lookup_weaken].
        rewrite lookup_insert_ne by done. by apply Hk1.
    + intros l o Hne Hl. apply Ho; [done|].
      rewrite lookup_insert_ne by done. by apply Hk1.
    + by etrans.
Qed.

Lemma baseClone_keeps (n : nat) : copies (Lodash.baseClone n true).
Proof.
  induction n as [|n IH]; intros v stack h v' stack' h' E; [done|].
  destruct v as [| |b|x|s|l|f]; simpl in E;
    try (unfold ret in E; injection E as <- <- <-;
         split; [apply keeps_refl|split; [reflexivity|done]]).
  apply bind_inv in E as (h_ & h1 & Eh & E). injection Eh as <- <-.
  destruct (h !! l) as [o|] eqn:Hl.
  - destruct (Lodash.cloneable (obj_tag o)) eqn:Hcb.
    + destruct (stack !! l) as [stacked|] eqn:Hst.
      * unfold ret in E. injection E as <- <- <-.
        split; [apply keeps_refl|split; [reflexivity|]].
        intros o' r _ _ Hr. congruence.
      * apply bind_inv in E as (result & h1 & Ea & E).
        unfold alloc in Ea. injection Ea as <- <-.
        apply bind_inv in E as (s' & h2 & Ec & E).
        unfold ret in E. injection E as <- <- <-.
        destruct (clone_props_keeps _ _ IH _ _ _ (obj_tag o) [] _ _
                    (lookup_insert_eq _ _ _) Ec) as (kvs & _ & _ & Ho & Hs').
        split; [|split].
        -- intros l0 o0 Hl0. apply Ho.
           ++ intros ->. by rewrite fresh_loc_unused in Hl0.
           ++ rewrite lookup_insert_ne; [done|].
              intros <-. by rewrite fresh_loc_unused in Hl0.
        -- etrans; [|exact Hs']. by apply insert_subseteq.
        -- intros o' r _ _ Hr. congruence.
    + unfold ret in E. injection E as <- <- <-.
        split; [apply keeps_refl|split; [reflexivity|]].
      intros o' r Ho' Hcb'. congruence.
  - unfold ret in E. injection E as <- <- <-.
        split; [apply keeps_refl|split; [reflexivity|]].
    intros o r Ho. congruence.
Qed.

End Copies.

Lemma has_prop_In (k : string) (ps : list (string * value)) :
  has_prop k ps = true <-> In k (map fst ps).
Proof.
  induction ps as [|[k0 v0] ps IH]; simpl; [done|].
  destruct (String.eqb k k0) eqn:E.
  - apply String.eqb_eq in E as ->. split; auto.
  - apply String.eqb_neq in E. rewrite IH. split; [auto|].
    intros [E'|]; [congruence|done].
Qed.

Lemma has_prop_false (k : string) (ps : list (string * value)) :
  ~ In k (map fst ps) -> has_prop k ps = false.
Proof.
  intros Hk. destruct (has_prop k ps) eqn:E; [|done].
  by apply has_prop_In in E.
Qed.

Lemma assign_prop_new (k : string) (v : value) (ps : list (string * value)) :
  has_prop k ps = false -> assign_prop k v ps = (ps ++ [(k, v)])%list.
Proof.
  induction ps as [|[k0 v0] ps IH]; simpl; [done|].
  destruct (String.eqb k k0) eqn:E; [done|]. intros Hk. by rewrite IH.
Qed.

(** Assigning keys that are new and distinct appends them in order. *)
Lemma assign_all_new (kvs ps : list (string * value)) :
  NoDup (map fst kvs) ->
  (forall k, In k (map fst kvs) -> ~ In k (map fst ps)) ->
  assign_all kvs ps = (ps ++ kvs)%list.
Proof.
  revert ps. induction kvs as [|[k v] kvs IH]; intros ps Hnd Hnew.
  - by rewrite app_nil_r.
  - apply NoDup_cons in Hnd as [Hk Hnd].
    change (assign_all ((k, v) :: kvs) ps) with (assign_all kvs (assign_prop k v ps)).
    rewrite assign_prop_new by (apply has_prop_false, Hnew; by left).
    rewrite IH; [by rewrite <- app_assoc|done|].
    intros k' Hk'. rewrite map_app, in_app_iff. intros [Hin|[<-|[]]].
    + apply (Hnew k'); [by right|done].
    + apply Hk. by apply list_elem_of_In.
Qed.

Lemma lookup_prop_NoDup (k : string) (v : value) (ps : list (string * value)) :
  NoDup (map fst ps) -> In (k, v) ps -> lookup_prop k ps = v.
Proof.
  induction ps as [|[k0 v0] ps IH]; [done|]. simpl.
  intros Hnd Hin. apply NoDup_cons in Hnd as [Hk0 Hnd].
  destruct (String.eqb k k0) eqn:E.
  - apply String.eqb_eq in E as ->. destruct Hin as [Heq|Hin]; [congruence|].
    destruct Hk0. apply list_elem_of_In. apply (in_map fst) in Hin. exact Hin.
  - apply String.eqb_neq in E. destruct Hin as [Heq|Hin]; [congruence|]. auto.
Qed.

Lemma last_assigned_other (k : string) (kvs : list (string * value)) (d : value) :
  ~ In k (map fst kvs) -> last_assigned k kvs d = d.
Proof.
  revert d. induction kvs as [|[a v] kvs IH]; intros d Hk; [done|].
  unfold last_assigned in *. simpl in *.
  replace (String.eqb k a) with false.
  - apply IH. tauto.
  - symmetry. apply String.eqb_neq. intros ->. tauto.
Qed.

Lemma assigned_other (k : string) (kvs : list (string * value)) (d : bool) :
  ~ In k (map fst kvs) -> assigned k kvs d = d.
Proof.
  revert d. induction kvs as [|[a v] kvs IH]; intros d Hk; [done|].
  unfold assigned in *. simpl in *.
  replace (String.eqb k a) with false.
  - apply IH. tauto.
  - symmetry. apply String.eqb_neq. intros ->. tauto.
Qed.

Lemma not_patched_key (k : string) :
  is_patched_key k = false -> ~ In k patched_keys.
Proof.
  unfold is_patched_key. intros Hk Hin.
  assert (existsb (String.eqb k) patched_keys = true) as E; [|congruence].
  apply existsb_exists. exists k. split; [done|apply String.eqb_refl].
Qed.

(** The statements of the module leave the other keys of [validator]
    as [cloneDeep] made them. *)
Lemma patched_other (k : string) (ps : list (string * value)) :
  is_patched_key k = false ->
  lookup_prop k (patched ps) = lookup_prop k ps /\
  has_prop k (patched ps) = has_prop k ps.
Proof.
  intros Hk. apply not_patched_key in Hk. unfold patched_keys in Hk.
  rewrite !in_app_iff in Hk.
  assert (~ In k (map fst [("isImmutable", VFun IsImmutable); ("notNull", VFun NotNull)]))
    as H1 by (simpl in *; tauto).
  assert (~ In k (map fst extensions_literal)) as H2 by tauto.
  assert (forall v, ~ In k (map fst [("isNull", v); ("isDate", VFun IsDate)]))
    as H3 by (intros v; simpl in *; tauto).
  unfold patched. rewrite !lookup_assign_all, !has_assign_all.
  rewrite !(last_assigned_other k _ _ (H3 _)), !(assigned_other k _ _ (H3 _)).
  rewrite !(last_assigned_other k _ _ H2), !(assigned_other k _ _ H2).
  by rewrite !(last_assigned_other k _ _ H1), !(assigned_other k _ _ H1).
Qed.

Section CopiesOfModule.
Context {host : Host}.

(** [cloneDeep] of an object without duplicate keys: the clone has the
    keys of the source in the same order; a primitive or a function is
    there as in the source, and a reference to the source itself is a
    reference to the clone. *)
Lemma cloneDeep_values (h0 : heap) (s : loc) (o : obj) (c : loc) (h1 : heap) :
  h0 !! s = Some o -> Lodash.cloneable (obj_tag o) = true ->
  NoDup (map fst (obj_props o)) ->
  Lodash.cloneDeep (VObj s) h0 = (Ret (VObj c), h1) ->
  exists kvs,
    h1 !! c = Some (mkObj (obj_tag o) kvs) /\
    h0 !! c = None /\ keeps h0 h1 /\
    Forall2 (fun p q => fst q = fst p /\ cloned_of s c (snd p) (snd q))
      (obj_props o) kvs.
Proof.
  intros Hs Hcb Hnd E. unfold Lodash.cloneDeep in E.
  apply bind_inv in E as (h_ & h2 & Eh & E). unfold get_heap in Eh.
  injection Eh as <- <-.
  apply bind_inv in E as ([v' st] & h2 & E & Er).
  unfold ret in Er. cbn [fst] in Er. injection Er as -> ->.
  simpl in E. apply bind_inv in E as (h_ & h2 & Eh & E). unfold get_heap in Eh.
  injection Eh as <- <-. rewrite Hs, Hcb, lookup_empty in E.
  apply bind_inv in E as (result & h2 & Ea & E).
  unfold alloc in Ea. injection Ea as <- <-.
  apply bind_inv in E as (s' & h2 & Ec & E).
  unfold ret in E. injection E as <- <- <-.
  set (c := fresh (dom h0)) in *.
  assert (h0 !! c = None) as Hc by apply fresh_loc_unused.
  destruct (clone_props_keeps _ c (baseClone_keeps (size h0)) _ _ _ (obj_tag o) [] _ _
              (lookup_insert_eq _ _ _) Ec) as (kvs & Hr & HF & Ho & _).
  assert (map fst kvs = map fst (obj_props o)) as Hkeys.
  { clear -HF. induction HF as [|p q ps qs [Hpq _] _ IH]; [done|]. simpl. congruence. }
  exists kvs. split; [|split; [done|split]].
  - rewrite Hr. do 2 f_equal.
    rewrite assign_all_new; [done|by rewrite Hkeys|by intros k _ []].
  - intros l o' Hl. apply Ho; [intros ->; congruence|].
    rewrite lookup_insert_ne; [done|]. intros <-. congruence.
  - eapply Forall2_impl; [exact HF|].
    intros [k v] [k' w] [Hfst Hcl]. split; [done|].
    destruct v as [| |b|n|x|l|f]; try done.
    intros ->. simpl in Hcl. apply (Hcl o c); [|done|apply lookup_insert_eq].
    rewrite lookup_insert_ne; [done|]. intros <-. congruence.
Qed.

End CopiesOfModule.

(** ** The loaded module, in full *)

Lemma distinct_NoDup (ks : list string) : distinct ks = true -> NoDup ks.
Proof.
  induction ks as [|k ks IH]; simpl; [constructor|].
  intros [Hk Hd]%andb_prop. apply NoDup_cons. split; [|auto].
  intros Hin%list_elem_of_In. apply negb_true_iff in Hk.
  assert (existsb (String.eqb k) ks = true) as E; [|congruence].
  apply existsb_exists. exists k. split; [done|apply String.eqb_refl].
Qed.

Lemma Forall2_In_l {A B} (R : A -> B -> Prop) (xs : list A) (ys : list B) (x : A) :
  Forall2 R xs ys -> In x xs -> exists y, In y ys /\ R x y.
Proof.
  induction 1 as [|x0 y0 xs ys Hxy _ IH]; [done|].
  intros [<-|Hin].
  - exists y0. split; [by left|done].
  - destruct (IH Hin) as (y & Hy & Hr). exists y. split; [by right|done].
Qed.

Section LoadedInFull.
Context {host : Host}.

(** The run of [module_init] once [cloneDeep] has returned. *)
Lemma module_init_run (h0 : heap) (s c : loc) (h1 : heap) (oc : obj) :
  Lodash.cloneDeep (VObj s) h0 = (Ret (VObj c), h1) ->
  h1 !! c = Some oc ->
  has_prop "isEmpty" (obj_props oc) = true ->
  module_init (VObj s) h0
  = (Ret (VObj (fresh (dom h1)), VObj c),
     <[c := mkObj (obj_tag oc) (patched (obj_props oc))]>
       (<[fresh (dom h1) := mkObj TObject extensions_literal]> h1)).
Proof.
  intros Eclone Hc1 Hempty.
  set (e := fresh (dom h1)).
  assert (h1 !! e = None) as He1 by apply fresh_loc_unused.
  assert (e <> c) as Hec by (intros E; congruence).
  assert (c <> e) as Hce by done.
  set (lit := mkObj TObject extensions_literal).
  set (h2 := <[e := lit]> h1).
  set (p3 := assign_prop "isImmutable" (VFun IsImmutable) (obj_props oc)).
  set (h3 := <[c := mkObj (obj_tag oc) p3]> h2).
  set (p4 := assign_prop "notNull" (VFun NotNull) p3).
  set (h4 := <[c := mkObj (obj_tag oc) p4]> h3).
  set (p5 := fold_left (fun ps k => assign_prop k (lookup_prop k extensions_literal) ps)
               (map fst extensions_literal) p4).
  set (h5 := <[c := mkObj (obj_tag oc) p5]> h4).
  set (p6 := assign_prop "isNull" (lookup_prop "isEmpty" p5) p5).
  set (h6 := <[c := mkObj (obj_tag oc) p6]> h5).
  set (p7 := assign_prop "isDate" (VFun IsDate) p6).
  set (h7 := <[c := mkObj (obj_tag oc) p7]> h6).
  assert (h4 !! e = Some lit) as He4.
  { unfold h4, h3, h2. rewrite !lookup_insert_ne by done. apply lookup_insert_eq. }
  assert (has_prop "isEmpty" p5 = true) as Hempty5.
  { change p5 with (assign_all extensions_literal p4).
    rewrite has_assign_all. unfold p4, p3.
    rewrite !has_prop_assign, Hempty, !orb_true_r.
    apply assigned_true. }
  assert (set_prop (VObj c) "isImmutable" (VFun IsImmutable) h2 = (Ret tt, h3)) as E3.
  { apply (set_prop_obj h2 c oc). unfold h2. by rewrite lookup_insert_ne. }
  assert (set_prop (VObj c) "notNull" (VFun NotNull) h3 = (Ret tt, h4)) as E4.
  { apply (set_prop_obj h3 c (mkObj (obj_tag oc) p3)). apply lookup_insert_eq. }
  assert (Lodash.forEach (VObj e)
            (fun extend key => set_elem (VObj c) (VStr key) extend) h4
          = (Ret tt, h5)) as E5.
  { unfold Lodash.forEach. erewrite bind_ret; [|done]. rewrite He4.
    apply (forEach_keys_assign e c lit Hec _ h4 (mkObj (obj_tag oc) p4)).
    - done.
    - apply lookup_insert_eq.
    - exact extension_keys_own. }
  assert (get_prop (VObj c) "isEmpty" h5 = (Ret (lookup_prop "isEmpty" p5), h5)) as E6.
  { apply (get_prop_own h5 c (mkObj (obj_tag oc) p5)); [apply lookup_insert_eq|done]. }
  assert (set_prop (VObj c) "isNull" (lookup_prop "isEmpty" p5) h5 = (Ret tt, h6)) as E7.
  { apply (set_prop_obj h5 c (mkObj (obj_tag oc) p5)). apply lookup_insert_eq. }
  assert (set_prop (VObj c) "isDate" (VFun IsDate) h6 = (Ret tt, h7)) as E8.
  { apply (set_prop_obj h6 c (mkObj (obj_tag oc) p6)). apply lookup_insert_eq. }
  unfold module_init.
  erewrite bind_ret; [|exact Eclone].
  erewrite bind_ret; [|unfold alloc; fold e; fold lit; fold h2; done].
  erewrite bind_ret; [|exact E3].
  erewrite bind_ret; [|exact E4].
  erewrite bind_ret; [|exact E5].
  erewrite bind_ret; [|exact E6].
  erewrite bind_ret; [|exact E7].
  erewrite bind_ret; [|exact E8].
  unfold ret. f_equal.
  unfold h7, h6, h5, h4, h3. by rewrite !insert_insert_eq.
Qed.

(** The heap once the module is loaded, written out: the library's
    heap [h0] is kept, the clone [c] has the properties [kvs] that
    [cloneDeep] copied, patched, and [e] is the [extensions] object. *)
Lemma loaded_state (h0 : heap) (s : loc) (o : obj) :
  heap_closed h0 = true -> h0 !! s = Some o -> module_ok o = true ->
  exists e c kvs h1,
    module_init (VObj s) h0
    = (Ret (VObj e, VObj c),
       <[c := mkObj (obj_tag o) (patched kvs)]>
         (<[e := mkObj TObject extensions_literal]> h1)) /\
    keeps h0 h1 /\ h1 !! c = Some (mkObj (obj_tag o) kvs) /\
    h1 !! e = None /\ e <> c /\ c <> s /\ e <> s /\ h0 !! c = None /\
    NoDup (map fst kvs) /\
    Forall2 (fun p q => fst q = fst p /\ cloned_of s c (snd p) (snd q))
      (obj_props o) kvs.
Proof.
  intros Hclosed Hs [[Hcb Hempty]%andb_prop Hd%distinct_NoDup]%andb_prop.
  destruct (cloneDeep_object h0 s o Hclosed Hs Hcb)
    as (c & oc & h1 & Eclone & Hc0 & _ & Hc1 & _ & _).
  destruct (cloneDeep_values h0 s o c h1 Hs Hcb Hd Eclone)
    as (kvs & Hc1' & _ & Hkeep & HF).
  assert (oc = mkObj (obj_tag o) kvs) as -> by congruence.
  assert (map fst kvs = map fst (obj_props o)) as Hkeys.
  { clear -HF. induction HF as [|p q ps qs [Hpq _] _ IH]; [done|]. simpl. congruence. }
  assert (has_prop "isEmpty" kvs = true) as Hempty'.
  { apply has_prop_In. rewrite Hkeys. by apply has_prop_In. }
  exists (fresh (dom h1)), c, kvs, h1.
  assert (h1 !! fresh (dom h1) = None) as He by apply fresh_loc_unused.
  split; [exact (module_init_run h0 s c h1 _ Eclone Hc1 Hempty')|].
  repeat split; try done.
  - intros E. congruence.
  - intros ->. congruence.
  - intros E. rewrite E in He. by rewrite (Hkeep _ _ Hs) in He.
  - by rewrite Hkeys.
Qed.

(** X16: every primitive and every function that the library's module
    object holds under a key the module does not assign is found on
    the loaded [validator], unchanged: the library's own predicates
    stay available, by reference. *)
Theorem loaded_keeps_library_values (h0 : heap) (s : loc) (o : obj) :
  heap_closed h0 = true -> h0 !! s = Some o -> module_ok o = true ->
  exists e c h',
    module_init (VObj s) h0 = (Ret (VObj e, VObj c), h') /\
    forall k v,
      In (k, v) (obj_props o) -> is_patched_key k = false ->
      (forall l, v <> VObj l) ->
      get_prop (VObj c) k h' = (Ret v, h').
Proof.
  intros Hclosed Hs Hok.
  destruct (loaded_state h0 s o Hclosed Hs Hok)
    as (e & c & kvs & h1 & E & _ & _ & _ & _ & _ & _ & _ & Hnd & HF).
  eexists e, c, _. split; [exact E|]. intros k v Hin Hk Hv.
  destruct (Forall2_In_l _ _ _ _ HF Hin) as ([k' v'] & Hin' & Hfst & Hcl).
  simpl in Hfst, Hcl. subst k'.
  assert (v' = v) as -> by (destruct v; try done; by destruct (Hv l)).
  destruct (patched_other k kvs Hk) as [Hlook Hhas].
  erewrite get_prop_own; [|apply lookup_insert_eq|].
  - cbn [obj_props]. by rewrite Hlook, (lookup_prop_NoDup k v kvs Hnd Hin').
  - cbn [obj_props]. rewrite Hhas. apply has_prop_In.
    apply (in_map fst) in Hin'. exact Hin'.
Qed.

(** X17: [cloneDeep] follows cycles: a property of the library's
    module object that refers back to the module object (such as
    [default]) refers, on the loaded [validator], to [validator]
    itself and not to the library. *)
Theorem loaded_self_reference (h0 : heap) (s : loc) (o : obj) :
  heap_closed h0 = true -> h0 !! s = Some o -> module_ok o = true ->
  exists e c h',
    module_init (VObj s) h0 = (Ret (VObj e, VObj c), h') /\ c <> s /\
    forall k,
      In (k, VObj s) (obj_props o) -> is_patched_key k = false ->
      get_prop (VObj c) k h' = (Ret (VObj c), h').
Proof.
  intros Hclosed Hs Hok.
  destruct (loaded_state h0 s o Hclosed Hs Hok)
    as (e & c & kvs & h1 & E & _ & _ & _ & _ & Hcs & _ & _ & Hnd & HF).
  eexists e, c, _. split; [exact E|]. split; [done|]. intros k Hin Hk.
  destruct (Forall2_In_l _ _ _ _ HF Hin) as ([k' v'] & Hin' & Hfst & Hcl).
  simpl in Hfst, Hcl. subst k'. rewrite (Hcl eq_refl) in Hin'.
  destruct (patched_other k kvs Hk) as [Hlook Hhas].
  erewrite get_prop_own; [|apply lookup_insert_eq|].
  - cbn [obj_props]. by rewrite Hlook, (lookup_prop_NoDup k _ kvs Hnd Hin').
  - cbn [obj_props]. rewrite Hhas. apply has_prop_In.
    apply (in_map fst) in Hin'. exact Hin'.
Qed.

End LoadedInFull.

Section LoadedUse.
Context {host : Host}.


(** What is read on the loaded [validator]. *)
Lemma loaded_reads (h0 : heap) (s : loc) (o : obj) :
  heap_closed h0 = true -> h0 !! s = Some o -> module_ok o = true ->
  exists e c h',
    module_init (VObj s) h0 = (Ret (VObj e, VObj c), h') /\
    (c <> s /\ e <> c /\ e <> s /\ h0 !! c = None /\ h0 !! e = None) /\
    (keeps h0 h' /\ h' !! e = Some (mkObj TObject extensions_literal) /\
     is_Some (h' !! c)) /\
    (forall k f, In (k, VFun f) extensions_literal ->
       get_prop (VObj c) k h' = (Ret (VFun f), h')) /\
    (forall k v, In (k, v) (obj_props o) -> is_patched_key k = false ->
       (forall l, v <> VObj l) -> get_prop (VObj c) k h' = (Ret v, h')) /\
    (forall f, In ("isEmpty", VFun f) (obj_props o) ->
       get_prop (VObj c) "isNull" h' = (Ret (VFun f), h')).
Proof.
  intros Hclosed Hs Hok.
  destruct (loaded_state h0 s o Hclosed Hs Hok)
    as (e & c & kvs & h1 & E & Hkeep & Hc1 & He1 & Hec & Hcs & Hes & Hc0 & Hnd & HF).
  set (h' := <[c := mkObj (obj_tag o) (patched kvs)]>
               (<[e := mkObj TObject extensions_literal]> h1)) in *.
  assert (h' !! c = Some (mkObj (obj_tag o) (patched kvs))) as Hc'
    by apply lookup_insert_eq.
  assert (forall k v, In (k, v) (obj_props o) -> (forall l, v <> VObj l) ->
            lookup_prop k kvs = v /\ has_prop k kvs = true) as Hcopy.
  { intros k v Hin Hv.
    destruct (Forall2_In_l _ _ _ _ HF Hin) as ([k' v'] & Hin' & Hfst & Hcl).
    simpl in Hfst, Hcl. subst k'.
    assert (v' = v) as -> by (destruct v; try done; by destruct (Hv l)).
    split; [by apply lookup_prop_NoDup|].
    apply has_prop_In. apply (in_map fst) in Hin'. exact Hin'. }
  exists e, c, h'. split; [exact E|]. split; [|split; [|split; [|split]]].
  - repeat split; try done.
    + destruct (h0 !! e) eqn:He0; [|done].
      assert (h1 !! e = Some o0) by by apply Hkeep. congruence.
  - split; [|split; [|by eexists]].
    + intros l o' Hl. unfold h'.
      assert (h1 !! l = Some o') as Hl1 by by apply Hkeep.
      rewrite !lookup_insert_ne; [done| |]; intros <-; congruence.
    + unfold h'. rewrite lookup_insert_ne by done. apply lookup_insert_eq.
  - intros k f Hin. rewrite <- (patched_extension kvs k f Hin).
    apply (get_prop_own h' c _ k Hc'). cbn [obj_props].
    by apply (patched_has_extension _ k f).
  - intros k v Hin Hk Hv. destruct (Hcopy k v Hin Hv) as [Hlook Hhas].
    destruct (patched_other k kvs Hk) as [Hlook' Hhas'].
    rewrite <- Hlook, <- Hlook'. apply (get_prop_own h' c _ k Hc').
    cbn [obj_props]. congruence.
  - intros f Hin. destruct (Hcopy "isEmpty" (VFun f) Hin) as [Hlook _]; [done|].
    destruct (patched_isNull kvs) as (HisNull & HisEmpty & Hhas & _).
    rewrite <- Hlook, <- HisEmpty, <- HisNull.
    by apply (get_prop_own h' c _ "isNull" Hc').
Qed.

(** X18: on the loaded [validator] the delegating methods reach the
    library's functions: [len] calls the library's [isLength] with the
    same arguments, [isUrl] its [isURL], and [isIPv4] and [isIPv6] its
    [isIP] with the version [4] or [6] added, all with [validator] as
    receiver. *)
Theorem loaded_delegation (h0 : heap) (s : loc) (o : obj) (isLength isURL isIP : fn) :
  heap_closed h0 = true -> h0 !! s = Some o -> module_ok o = true ->
  In ("isLength", VFun isLength) (obj_props o) ->
  In ("isURL", VFun isURL) (obj_props o) ->
  In ("isIP", VFun isIP) (obj_props o) ->
  exists e c h',
    module_init (VObj s) h0 = (Ret (VObj e, VObj c), h') /\
    forall fuel str min_ max_,
      invoke (S (S fuel)) (VObj c) "len" [str; min_; max_] h'
        = call (S fuel) isLength (VObj c) [str; min_; max_] h' /\
      invoke (S (S fuel)) (VObj c) "isUrl" [str] h'
        = call (S fuel) isURL (VObj c) [str] h' /\
      invoke (S (S fuel)) (VObj c) "isIPv4" [str] h'
        = call (S fuel) isIP (VObj c) [str; VNum (num_of_Z 4)] h' /\
      invoke (S (S fuel)) (VObj c) "isIPv6" [str] h'
        = call (S fuel) isIP (VObj c) [str; VNum (num_of_Z 6)] h'.
Proof.
  intros Hclosed Hs Hok HisLength HisURL HisIP.
  destruct (loaded_reads h0 s o Hclosed Hs Hok)
    as (e & c & h' & E & _ & _ & Hext & Hlib & _).
  exists e, c, h'. split; [exact E|]. intros fuel str min_ max_.
  assert (forall k f (args : list value),
            In (k, VFun f) (obj_props o) -> is_patched_key k = false ->
            invoke_with (call (S fuel)) (VObj c) k args h'
            = call (S fuel) f (VObj c) args h') as Hlibcall.
  { intros k f args Hin Hk. unfold invoke_with, bind.
    by rewrite (Hlib k (VFun f) Hin Hk). }
  assert (forall k f (args : list value),
            In (k, VFun f) extensions_literal ->
            invoke (S (S fuel)) (VObj c) k args h'
            = call (S (S fuel)) f (VObj c) args h') as Hextcall.
  { intros k f args Hin. unfold invoke, invoke_with, bind.
    by rewrite (Hext k f Hin). }
  repeat split.
  - rewrite (Hextcall "len" Len) by (simpl; tauto).
    by apply (Hlibcall "isLength").
  - rewrite (Hextcall "isUrl" IsUrl) by (simpl; tauto).
    by apply (Hlibcall "isURL").
  - rewrite (Hextcall "isIPv4" IsIPv4) by (simpl; tauto).
    by apply (Hlibcall "isIP").
  - rewrite (Hextcall "isIPv6" IsIPv6) by (simpl; tauto).
    by apply (Hlibcall "isIP").
Qed.

(** X19: on the loaded [validator], [isNull] is the very function the
    library exports as [isEmpty]: calling [validator.isNull(x)] runs
    the library's [isEmpty] on [x]. *)
Theorem loaded_isNull_is_library_isEmpty (h0 : heap) (s : loc) (o : obj) (isEmpty : fn) :
  heap_closed h0 = true -> h0 !! s = Some o -> module_ok o = true ->
  In ("isEmpty", VFun isEmpty) (obj_props o) ->
  exists e c h',
    module_init (VObj s) h0 = (Ret (VObj e, VObj c), h') /\
    get_prop (VObj c) "isNull" h' = (Ret (VFun isEmpty), h') /\
    get_prop (VObj s) "isEmpty" h' = (Ret (VFun isEmpty), h') /\
    forall fuel x,
      invoke fuel (VObj c) "isNull" [x] h' = call fuel isEmpty (VObj c) [x] h'.
Proof.
  intros Hclosed Hs Hok HisEmpty.
  pose proof Hok as [[_ Hhas]%andb_prop Hd%distinct_NoDup]%andb_prop.
  destruct (loaded_reads h0 s o Hclosed Hs Hok)
    as (e & c & h' & E & _ & (Hkeep & _ & _) & _ & _ & HisNull).
  exists e, c, h'. split; [exact E|]. split; [by apply HisNull|]. split.
  - rewrite <- (lookup_prop_NoDup "isEmpty" (VFun isEmpty) (obj_props o) Hd HisEmpty).
    apply (get_prop_own h' s o); [by apply Hkeep|done].
  - intros fuel x. unfold invoke, invoke_with, bind. by rewrite (HisNull _ HisEmpty).
Qed.

(** X20: the export [extensions] is a new object of its own that holds
    exactly the sixteen methods of the literal; [isImmutable],
    [notNull], [isNull] and [isDate] are set on [validator] only. *)
Theorem loaded_extensions_export (h0 : heap) (s : loc) (o : obj) :
  heap_closed h0 = true -> h0 !! s = Some o -> module_ok o = true ->
  exists e c h',
    module_init (VObj s) h0 = (Ret (VObj e, VObj c), h') /\
    h0 !! e = None /\ e <> c /\
    h' !! e = Some (mkObj TObject extensions_literal) /\
    length extensions_literal = 16%nat /\
    forall k, In k ["isImmutable"; "notNull"; "isNull"; "isDate"] ->
      own h' e k = false /\ own h' c k = true.
Proof.
  intros Hclosed Hs Hok.
  destruct (loaded_state h0 s o Hclosed Hs Hok)
    as (e & c & kvs & h1 & E & Hkeep & Hc1 & He1 & Hec & Hcs & Hes & _ & Hnd & HF).
  eexists e, c, _. split; [exact E|].
  assert (h0 !! e = None) as He0.
  { destruct (h0 !! e) eqn:He0; [|done].
    assert (h1 !! e = Some o0) by by apply Hkeep. congruence. }
  split; [done|]. split; [done|]. split.
  { rewrite lookup_insert_ne by done. apply lookup_insert_eq. }
  split; [done|]. intros k Hk. unfold own.
  rewrite lookup_insert_eq, lookup_insert_ne, lookup_insert_eq by done.
  cbn [obj_props]. unfold patched. rewrite !has_assign_all.
  simpl in Hk. destruct Hk as [<-|[<-|[<-|[<-|[]]]]]; split; vm_compute; reflexivity.
Qed.


End LoadedUse.

(** ** These theorems at work on the reference engine *)



Lemma extend_rebinds_isIn_witness :
  exists h',
    @call Engine.reference 1 Extend (VObj 1%positive)
      [VStr "isIn"; VFun NotNull] Examples.start = (Ret (VObj 1%positive), h') /\
    @call Engine.reference 2 NotIn (VObj 1%positive) [VNull] h'
    = map_outcome js_not (@call Engine.reference 1 NotNull (VObj 1%positive) [VNull] h').
Proof.
  destruct (@extend_rebinds_isIn Engine.reference 0 Examples.start 1%positive
              Examples.library_module NotNull eq_refl) as (h' & Hcall & Hnot).
  exists h'. split; [exact Hcall|]. exact (Hnot 0%nat VNull VUndefined).
Defined.

Lemma this_free_any_receiver_witness :
  @call Engine.reference 1 Min VUndefined [VStr "5"; VNum (num_of_Z 3)] ∅
  = @call Engine.reference 1 Min Examples.validator [VStr "5"; VNum (num_of_Z 3)] ∅.
Proof.
  apply (@this_free_any_receiver Engine.reference 1 Min). reflexivity.
Defined.

Lemma needs_this_detached_witness :
  @call Engine.reference 1 NotIn VUndefined [VStr "a"; VNull] Examples.loaded
  = (Throw TypeError, Examples.loaded).
Proof.
  apply (@needs_this_detached Engine.reference 0 NotIn VUndefined);
    [reflexivity|left; reflexivity].
Defined.


Lemma regex_keeps_RegExp_witness :
  @call Engine.reference 1 Regex VUndefined
    [VStr "banana"; VObj 6%positive; VStr "i"] MoreExamples.record
  = Engine.String_match "banana" (VObj 6%positive) MoreExamples.record.
Proof.
  apply (@regex_keeps_RegExp Engine.reference 0 MoreExamples.record VUndefined
           (VObj 6%positive) "banana").
  vm_compute. reflexivity.
Defined.

Lemma is_not_aliases_witness :
  @call Engine.reference 2 Is Examples.validator
    [VStr "hello world"; VStr "world"] Examples.loaded
  = @call Engine.reference 1 Regex Examples.validator
      [VStr "hello world"; VStr "world"] Examples.loaded.
Proof.
  assert (@get_prop Engine.reference Examples.validator "regex" Examples.loaded
          = (Ret (VFun Regex), Examples.loaded)) as Hregex
    by (vm_compute; reflexivity).
  assert (@get_prop Engine.reference Examples.validator "notRegex" Examples.loaded
          = (Ret (VFun NotRegex), Examples.loaded)) as HnotRegex
    by (vm_compute; reflexivity).
  exact (proj1 (@is_not_aliases Engine.reference 0 Examples.loaded Examples.validator
                  (VStr "hello world") (VStr "world") VUndefined Hregex HnotRegex)).
Defined.

Lemma isImmutable_NaN_fails_witness :
  @call Engine.reference 1 IsImmutable VUndefined
    [VNum NaN; VBool true; VStr "score"; VObj 1%positive] MoreExamples.record
  = (Ret (VBool false), MoreExamples.record).
Proof.
  apply (@isImmutable_NaN_fails Engine.reference 0 MoreExamples.record VUndefined
           (VNum NaN) (VBool true) (VObj 1%positive) "score"
           (VBool false) (VObj 2%positive) (VObj 3%positive) (VNum NaN));
    reflexivity.
Defined.

Lemma isImmutable_unchanged_passes_witness :
  @call Engine.reference 1 IsImmutable VUndefined
    [VNum (num_of_Z 7); VBool true; VStr "id"; VObj 1%positive] MoreExamples.record
  = (Ret (VBool true), MoreExamples.record).
Proof.
  apply (@isImmutable_unchanged_passes Engine.reference 0 MoreExamples.record VUndefined
           (VNum (num_of_Z 7)) (VBool true) (VObj 1%positive) "id"
           (VBool false) (VObj 2%positive) (VObj 3%positive) (VNum (num_of_Z 7)));
    try reflexivity.
  intros E. discriminate E.
Defined.

Lemma isImmutable_distinct_objects_fail_witness :
  @call Engine.reference 1 IsImmutable VUndefined
    [VObj 4%positive; VBool true; VStr "born"; VObj 1%positive] MoreExamples.record
  = (Ret (VBool false), MoreExamples.record).
Proof.
  apply (@isImmutable_distinct_objects_fail Engine.reference 0 MoreExamples.record
           VUndefined (VObj 4%positive) (VBool true) (VObj 1%positive) "born"
           (VBool false) (VObj 2%positive) (VObj 3%positive)
           4%positive 5%positive (mkObj TDate []));
    try reflexivity.
  intros E. discriminate E.
Defined.

Lemma isImmutable_needs_instance_witness :
  @call Engine.reference 1 IsImmutable VUndefined [VStr "x"] ∅ = (Throw TypeError, ∅).
Proof.
  apply (@isImmutable_needs_instance Engine.reference 0 ∅ VUndefined [VStr "x"]).
  left. reflexivity.
Defined.

Lemma contains_substring_witness :
  exists b,
    @call Engine.reference 1 Contains VUndefined [VStr "banana"; VStr "nan"] ∅
      = (Ret (VBool b), ∅) /\
    (b = true <-> exists p q, "banana" = (p ++ "nan" ++ q)%string).
Proof.
  destruct (@contains_substring Engine.reference 0 ∅ VUndefined "banana" "nan")
    as (b & Hcall & Hiff & _); [intros E; discriminate E|].
  exists b. split; [exact Hcall|exact Hiff].
Defined.

Lemma contains_RegExp_raises_witness :
  @call Engine.reference 1 Contains VUndefined [VStr "banana"; VObj 6%positive]
    MoreExamples.record = (Throw TypeError, MoreExamples.record).
Proof.
  assert (class_of MoreExamples.record (VObj 6%positive) = "RegExp") as Hre
    by (vm_compute; reflexivity).
  exact (proj1 (@contains_RegExp_raises Engine.reference 0 MoreExamples.record
                  VUndefined (VObj 6%positive) "banana" Hre)).
Defined.

Lemma more_examples_ok :
  heap_closed MoreExamples.start = true /\
  MoreExamples.start !! 1%positive = Some MoreExamples.library_module /\
  module_ok MoreExamples.library_module = true.
Proof. repeat split; vm_compute; reflexivity. Defined.

Lemma loaded_keeps_library_values_witness :
  exists e c h',
    @module_init Engine.reference (VObj 1%positive) MoreExamples.start
      = (Ret (VObj e, VObj c), h') /\
    @get_prop Engine.reference (VObj c) "isIP" h' = (Ret (VFun (External "isIP")), h') /\
    @get_prop Engine.reference (VObj c) "version" h' = (Ret (VStr "13.7.0"), h').
Proof.
  destruct more_examples_ok as (Hclosed & Hs & Hok).
  destruct (@loaded_keeps_library_values Engine.reference MoreExamples.start 1%positive
              MoreExamples.library_module Hclosed Hs Hok) as (e & c & h' & E & Hget).
  exists e, c, h'. split; [exact E|]. split.
  - apply Hget; [simpl; tauto|reflexivity|intros l Hl; discriminate Hl].
  - apply Hget; [simpl; tauto|reflexivity|intros l Hl; discriminate Hl].
Defined.

Lemma loaded_self_reference_witness :
  exists e c h',
    @module_init Engine.reference (VObj 1%positive) MoreExamples.start
      = (Ret (VObj e, VObj c), h') /\ c <> 1%positive /\
    @get_prop Engine.reference (VObj c) "default" h' = (Ret (VObj c), h').
Proof.
  destruct more_examples_ok as (Hclosed & Hs & Hok).
  destruct (@loaded_self_reference Engine.reference MoreExamples.start 1%positive
              MoreExamples.library_module Hclosed Hs Hok) as (e & c & h' & E & Hc & Hget).
  exists e, c, h'. split; [exact E|]. split; [exact Hc|].
  apply Hget; [simpl; tauto|reflexivity].
Defined.

Lemma loaded_delegation_witness :
  exists e c h',
    @module_init Engine.reference (VObj 1%positive) MoreExamples.start
      = (Ret (VObj e, VObj c), h') /\
    @invoke Engine.reference 2 (VObj c) "isIPv4" [VStr "10.0.0.1"] h'
    = @call Engine.reference 1 (External "isIP") (VObj c)
        [VStr "10.0.0.1"; VNum (num_of_Z 4)] h'.
Proof.
  destruct more_examples_ok as (Hclosed & Hs & Hok).
  destruct (@loaded_delegation Engine.reference MoreExamples.start 1%positive
              MoreExamples.library_module
              (External "isLength") (External "isURL") (External "isIP")
              Hclosed Hs Hok) as (e & c & h' & E & Hcalls); try (simpl; tauto).
  exists e, c, h'. split; [exact E|].
  exact (proj1 (proj2 (proj2 (Hcalls 0%nat (VStr "10.0.0.1") VUndefined VUndefined)))).
Defined.

Lemma loaded_isNull_is_library_isEmpty_witness :
  exists e c h',
    @module_init Engine.reference (VObj 1%positive) MoreExamples.start
      = (Ret (VObj e, VObj c), h') /\
    @get_prop Engine.reference (VObj c) "isNull" h'
      = (Ret (VFun (External "isEmpty")), h').
Proof.
  destruct more_examples_ok as (Hclosed & Hs & Hok).
  destruct (@loaded_isNull_is_library_isEmpty Engine.reference MoreExamples.start
              1%positive MoreExamples.library_module (External "isEmpty")
              Hclosed Hs Hok) as (e & c & h' & E & Hget & _); [simpl; tauto|].
  exists e, c, h'. split; [exact E|exact Hget].
Defined.

Lemma loaded_extensions_export_witness :
  exists e c h',
    @module_init Engine.reference (VObj 1%positive) MoreExamples.start
      = (Ret (VObj e, VObj c), h') /\
    h' !! e = Some (mkObj TObject extensions_literal).
Proof.
  destruct more_examples_ok as (Hclosed & Hs & Hok).
  destruct (@loaded_extensions_export Engine.reference MoreExamples.start 1%positive
              MoreExamples.library_module Hclosed Hs Hok)
    as (e & c & h' & E & _ & _ & He & _).
  exists e, c, h'. split; [exact E|exact He].
Defined.


(** ** The literals of [notEmpty] and [isDecimal] *)

Module LiteralFacts.
Import Literal.
Local Open Scope list_scope.

Lemma matches_Empty (l : list ascii) : ~ matches Empty l.
Proof. intros H. inversion H. Qed.

Lemma matches_Eps (l : list ascii) : matches Eps l <-> l = [].
Proof. split; [intros H; by inversion H|intros ->; constructor]. Qed.

Lemma nullable_spec (r : re) : nullable r = true <-> matches r [].
Proof.
  split.
  - induction r as [| |p|r1 IH1 r2 IH2|r1 IH1 r2 IH2|r IH]; simpl; try done.
    + intros _. constructor.
    + intros [H1 H2]%andb_prop. apply (MSeq r1 r2 [] []); auto.
    + intros [H1|H2]%orb_prop; [apply MAltL|apply MAltR]; auto.
    + intros _. constructor.
  - intros H. remember [] as l eqn:El.
    induction H as [|p c Hp|r1 r2 l1 l2 H1 IH1 H2 IH2|r1 r2 l H IH|r1 r2 l H IH
                   |r|r l1 l2 H1 IH1 H2 IH2]; simpl; try done.
    + apply app_eq_nil in El as [-> ->]. by rewrite IH1, IH2.
    + by rewrite IH.
    + rewrite IH by done. apply orb_true_r.
Qed.

Lemma matches_Star_cons (r : re) (c : ascii) (l : list ascii) :
  matches (Star r) (c :: l) ->
  exists l1 l2, l = l1 ++ l2 /\ matches r (c :: l1) /\ matches (Star r) l2.
Proof.
  intros H. remember (Star r) as r' eqn:Er. remember (c :: l) as l' eqn:El.
  revert l El.
  induction H as [|p c' Hp|r1 r2 l1 l2 H1 IH1 H2 IH2|r1 r2 l0 H IH|r1 r2 l0 H IH
                 |r0|r0 l1 l2 H1 IH1 H2 IH2]; intros l El; try done.
  injection Er as ->. destruct l1 as [|a l1]; simpl in El.
  - by apply IH2.
  - injection El as -> <-. by exists l1, l2.
Qed.

Lemma matches_Chr (p : ascii -> bool) (l : list ascii) :
  matches (Chr p) l <-> exists c, l = [c] /\ p c = true.
Proof.
  split; [intros H; inversion H; subst; eauto|].
  intros (c & -> & Hc). by constructor.
Qed.

Lemma matches_Seq (r1 r2 : re) (l : list ascii) :
  matches (Seq r1 r2) l <->
  exists l1 l2, l = l1 ++ l2 /\ matches r1 l1 /\ matches r2 l2.
Proof.
  split; [intros H; inversion H; subst; eauto|].
  intros (l1 & l2 & -> & H1 & H2). by constructor.
Qed.

Lemma matches_Alt (r1 r2 : re) (l : list ascii) :
  matches (Alt r1 r2) l <-> matches r1 l \/ matches r2 l.
Proof.
  split; [intros H; inversion H; subst; eauto|].
  intros [H|H]; [by apply MAltL|by apply MAltR].
Qed.

Lemma deriv_spec (c : ascii) (r : re) (l : list ascii) :
  matches (deriv c r) l <-> matches r (c :: l).
Proof.
  revert l. induction r as [| |p|r1 IH1 r2 IH2|r1 IH1 r2 IH2|r IH]; intros l; simpl.
  - split; intros H; inversion H.
  - split; intros H; inversion H.
  - rewrite matches_Chr. destruct (p c) eqn:Hp.
    + rewrite matches_Eps. split; [intros ->; eauto|].
      intros (c' & E & _). by injection E.
    + split; [intros H; inversion H|].
      intros (c' & E & Hc'). injection E as -> _. congruence.
  - assert (matches (Seq (deriv c r1) r2) l \/
            (matches r1 [] /\ matches (deriv c r2) l)
            <-> matches (Seq r1 r2) (c :: l)) as Hseq.
    { rewrite !matches_Seq. split.
      - intros [(l1 & l2 & -> & H1 & H2)|[H1 H2]].
        + exists (c :: l1), l2. split; [done|]. split; [by apply IH1|done].
        + exists [], (c :: l). split; [done|]. split; [done|by apply IH2].
      - intros (l1 & l2 & E & H1 & H2). destruct l1 as [|a l1]; simpl in E.
        + right. subst l2. split; [done|by apply IH2].
        + injection E as <- ->. left. exists l1, l2.
          split; [done|]. split; [by apply IH1|done]. }
    rewrite <- Hseq. destruct (nullable r1) eqn:Hn.
    + rewrite matches_Alt. apply nullable_spec in Hn. tauto.
    + split; [tauto|]. intros [H|[H _]]; [done|].
      apply nullable_spec in H. congruence.
  - rewrite !matches_Alt, IH1, IH2. tauto.
  - rewrite matches_Seq. split.
    + intros (l1 & l2 & -> & H1 & H2).
      apply IH in H1. by apply (MStarS r (c :: l1) l2).
    + intros H. destruct (matches_Star_cons r c l H) as (l1 & l2 & -> & H1 & H2).
      exists l1, l2. split; [done|]. split; [by apply IH|done].
Qed.

(** The matcher decides the language. *)
Lemma accepts_spec (r : re) (l : list ascii) : accepts r l = true <-> matches r l.
Proof.
  revert r. induction l as [|c l IH]; intros r; simpl.
  - apply nullable_spec.
  - rewrite IH. apply deriv_spec.
Qed.

Lemma matches_uses (r : re) (l : list ascii) :
  matches r l -> Forall (fun c => uses r c = true) l.
Proof.
  induction 1 as [|p c Hp|r1 r2 l1 l2 H1 IH1 H2 IH2|r1 r2 l H IH|r1 r2 l H IH
                 |r|r l1 l2 H1 IH1 H2 IH2]; simpl.
  - constructor.
  - by repeat constructor.
  - apply Forall_app. split; (eapply Forall_impl; [eassumption|]); simpl;
      intros c ->; [done|apply orb_true_r].
  - eapply Forall_impl; [eassumption|]. by intros c ->.
  - eapply Forall_impl; [eassumption|]. intros c ->. apply orb_true_r.
  - constructor.
  - apply Forall_app. by split.
Qed.

Lemma matches_Star_class (p : ascii -> bool) (l : list ascii) :
  matches (Star (Chr p)) l <-> Forall (fun c => p c = true) l.
Proof.
  split; [apply (matches_uses (Star (Chr p)))|].
  induction 1 as [|c l Hc _ IH]; [constructor|].
  apply (MStarS (Chr p) [c] l); [by constructor|done].
Qed.

Lemma matches_Plus_class (p : ascii -> bool) (l : list ascii) :
  l <> [] -> Forall (fun c => p c = true) l -> matches (Plus (Chr p)) l.
Proof.
  intros Hl Hall. destruct l as [|c l]; [done|].
  apply Forall_cons in Hall as [Hc Hall].
  apply (MSeq (Chr p) (Star (Chr p)) [c] l); [by constructor|].
  by apply matches_Star_class.
Qed.

Lemma list_ascii_app (s t : string) :
  list_ascii_of_string (s ++ t)%string
  = list_ascii_of_string s ++ list_ascii_of_string t.
Proof. induction s as [|c s IH]; [done|]. rewrite append_cons. simpl. by rewrite IH. Qed.

Lemma list_ascii_nil (s : string) : list_ascii_of_string s = [] <-> s = ""%string.
Proof. by destruct s. Qed.

End LiteralFacts.

Module LiteralForms.
Import Literal LiteralFacts.
Local Open Scope list_scope.

Lemma forallb_false (p : ascii -> bool) (l : list ascii) :
  forallb p l = false <-> exists c, In c l /\ p c = false.
Proof.
  induction l as [|a l IH]; simpl.
  - split; [done|]. by intros (c & [] & _).
  - destruct (p a) eqn:Ha; simpl.
    + rewrite IH. split; intros (c & Hc & Hp); exists c; [tauto|].
      destruct Hc as [->|Hc]; [congruence|done].
    + split; [|done]. intros _. exists a. tauto.
Qed.

Lemma test_blank (s : string) :
  re_test blank s = forallb space (list_ascii_of_string s).
Proof.
  unfold re_test, blank. apply eq_true_iff_eq.
  rewrite accepts_spec, matches_Star_class, forallb_forall, Forall_forall.
  split; intros H c Hc; apply H; by apply list_elem_of_In.
Qed.

Lemma one_of_single (a c : ascii) : one_of (String a "") c = true -> c = a.
Proof.
  unfold one_of. simpl. rewrite orb_false_r. apply Ascii.eqb_eq.
Qed.

Lemma one_of_pair (a b c : ascii) :
  one_of (String a (String b "")) c = true -> c = a \/ c = b.
Proof.
  unfold one_of. simpl. rewrite orb_false_r.
  intros [H|H]%orb_prop; apply Ascii.eqb_eq in H; auto.
Qed.

Lemma decimal_uses (c : ascii) :
  uses decimal c = true -> one_of "0123456789.-+eE" c = true.
Proof.
  destruct c as [[] [] [] [] [] [] [] []]; vm_compute; intros H; exact H.
Qed.

Lemma digits_list (l : list ascii) :
  Forall (fun c => digit c = true) l -> digits (string_of_list_ascii l).
Proof. unfold digits. by rewrite list_ascii_of_string_of_list_ascii. Qed.

Lemma string_of_list_app (l1 l2 : list ascii) :
  string_of_list_ascii (l1 ++ l2)
  = (string_of_list_ascii l1 ++ string_of_list_ascii l2)%string.
Proof. induction l1 as [|c l1 IH]; [done|]. simpl. by rewrite IH. Qed.

Lemma string_of_list_nil (l : list ascii) :
  string_of_list_ascii l = ""%string <-> l = [].
Proof. by destruct l. Qed.

(** The three groups, as shapes of strings. *)
Lemma integer_form_spec (l : list ascii) :
  matches (Opt integer_part) l <-> integer_form (string_of_list_ascii l).
Proof.
  unfold Opt, integer_part, Plus, integer_form.
  rewrite matches_Alt, matches_Eps, matches_Seq. split.
  - intros [(l1 & l2 & -> & H1 & H2)| ->]; [right|by left].
    apply matches_Alt in H1. apply matches_Seq in H2 as (d1 & d2 & -> & Hd1 & Hd2).
    apply matches_Chr in Hd1 as (c & -> & Hc). apply matches_Star_class in Hd2.
    exists (string_of_list_ascii ([c] ++ d2)). split; [done|]. split.
    { apply digits_list. by constructor. }
    destruct H1 as [H1|H1].
    + apply matches_Chr in H1 as (m & -> & Hm%one_of_single). subst m. by right.
    + apply matches_Eps in H1 as ->. by left.
  - intros [E|(d & Hd & Hdig & E)].
    + right. by apply string_of_list_nil.
    + left. unfold digits in Hdig.
      assert (matches (Seq (Chr digit) (Star (Chr digit))) (list_ascii_of_string d)) as Hm.
      { apply (matches_Plus_class digit); [|done]. by rewrite list_ascii_nil. }
      assert (l = list_ascii_of_string (string_of_list_ascii l)) as ->
        by by rewrite list_ascii_of_string_of_list_ascii.
      destruct E as [->| ->].
      * exists [], (list_ascii_of_string d). split; [done|].
        split; [apply MAltR; constructor|exact Hm].
      * exists ["-"%char], (list_ascii_of_string d). split; [done|].
        split; [apply MAltL; by constructor|exact Hm].
Qed.

Lemma fraction_form_spec (l : list ascii) :
  matches (Opt fraction_part) l <-> fraction_form (string_of_list_ascii l).
Proof.
  unfold Opt, fraction_part, fraction_form.
  rewrite matches_Alt, matches_Eps, matches_Seq. split.
  - intros [(l1 & l2 & -> & H1 & H2)| ->]; [right|by left].
    apply matches_Chr in H1 as (c & -> & Hc%one_of_single). subst c.
    apply matches_Star_class in H2.
    exists (string_of_list_ascii l2). split; [by apply digits_list|done].
  - intros [E|(d & Hdig & E)].
    + right. by apply string_of_list_nil.
    + left. unfold digits in Hdig.
      assert (l = list_ascii_of_string (string_of_list_ascii l)) as ->
        by by rewrite list_ascii_of_string_of_list_ascii.
      rewrite E. exists ["."%char], (list_ascii_of_string d). split; [done|].
      split; [by constructor|by apply matches_Star_class].
Qed.

Lemma exponent_form_spec (l : list ascii) :
  matches (Opt exponent_part) l <-> exponent_form (string_of_list_ascii l).
Proof.
  unfold Opt, exponent_part, Plus, exponent_form.
  rewrite matches_Alt, matches_Eps, matches_Seq. split.
  - intros [(l1 & l2 & -> & H1 & H2)| ->]; [right|by left].
    apply matches_Chr in H1 as (c & -> & Hc%one_of_pair).
    apply matches_Seq in H2 as (sg & ds & -> & Hsg & Hds).
    apply matches_Alt in Hsg.
    apply matches_Seq in Hds as (d1 & d2 & -> & Hd1 & Hd2).
    apply matches_Chr in Hd1 as (d & -> & Hd). apply matches_Star_class in Hd2.
    exists (String c ""), (string_of_list_ascii sg), (string_of_list_ascii ([d] ++ d2)).
    split; [destruct Hc as [->| ->]; auto|]. split.
    { destruct Hsg as [Hsg|Hsg].
      - apply matches_Chr in Hsg as (m & -> & Hm).
        apply one_of_pair in Hm as [Hm|Hm]; subst m; auto.
      - apply matches_Eps in Hsg as ->. auto. }
    split; [done|]. split; [apply digits_list; by constructor|].
    by rewrite !string_of_list_app.
  - intros [E|(e & sg & d & He & Hsg & Hd & Hdig & E)].
    + right. by apply string_of_list_nil.
    + left. unfold digits in Hdig.
      assert (matches (Seq (Chr digit) (Star (Chr digit))) (list_ascii_of_string d)) as Hm.
      { apply (matches_Plus_class digit); [|done]. by rewrite list_ascii_nil. }
      assert (l = list_ascii_of_string (string_of_list_ascii l)) as ->
        by by rewrite list_ascii_of_string_of_list_ascii.
      rewrite E, !list_ascii_app.
      exists (list_ascii_of_string e), (list_ascii_of_string sg ++ list_ascii_of_string d).
      split; [done|]. split.
      * destruct He as [->| ->]; by constructor.
      * apply MSeq; [|exact Hm].
        destruct Hsg as [->|[->| ->]];
          [apply MAltR; constructor|apply MAltL; by constructor..].
Qed.

(** The language of the [isDecimal] literal. *)
Lemma test_decimal (s : string) :
  re_test decimal s = true <->
  exists i f e, s = (i ++ f ++ e)%string /\
    integer_form i /\ fraction_form f /\ exponent_form e.
Proof.
  unfold re_test, decimal. rewrite accepts_spec, matches_Seq. split.
  - intros (l1 & l23 & E & H1 & H23).
    apply matches_Seq in H23 as (l2 & l3 & -> & H2 & H3).
    exists (string_of_list_ascii l1), (string_of_list_ascii l2), (string_of_list_ascii l3).
    split; [|split; [by apply integer_form_spec|split;
                     [by apply fraction_form_spec|by apply exponent_form_spec]]].
    rewrite <- !string_of_list_app, <- E. by rewrite string_of_list_ascii_of_string.
  - intros (i & f & e & -> & Hi & Hf & He).
    exists (list_ascii_of_string i), (list_ascii_of_string f ++ list_ascii_of_string e).
    split; [by rewrite !list_ascii_app|]. split.
    + apply integer_form_spec. by rewrite string_of_list_ascii_of_string.
    + apply MSeq.
      * apply fraction_form_spec. by rewrite string_of_list_ascii_of_string.
      * apply exponent_form_spec. by rewrite string_of_list_ascii_of_string.
Qed.

End LiteralForms.

Section Literals.
Context {host : Host}.
Import Literal.

(** X22: [notEmpty] (with [test] of its literal deciding the language
    of [^\s*$]) rejects exactly the strings made of white space only,
    the empty string among them: it returns [true] exactly when some
    character of the input is not white space. *)
Theorem notEmpty_spec (fuel : nat) (h : heap) (this : value) (s : string) :
  tests_literal host "^\s*$" blank ->
  exists b,
    call (S fuel) NotEmpty this [VStr s] h = (Ret (VBool b), h) /\
    (b = true <-> exists c, In c (list_ascii_of_string s) /\ space c = false) /\
    (b = false <-> Forall (fun c => space c = true) (list_ascii_of_string s)).
Proof.
  intros Htest. exists (negb (re_test blank s)). split; [|split].
  - simpl. unfold Ext.notEmpty, arg, bind. simpl. by rewrite Htest.
  - rewrite negb_true_iff, LiteralForms.test_blank. apply LiteralForms.forallb_false.
  - rewrite negb_false_iff, LiteralForms.test_blank, forallb_forall, Forall_forall.
    split; intros H c Hc; apply H; by apply list_elem_of_In.
Qed.

(** [isDecimal] on a string. *)
Lemma isDecimal_run (fuel : nat) (h : heap) (this : value) (s : string) :
  tests_literal host "^(?:-?\d+)?(?:\.\d*)?(?:[Ee][+-]?\d+)?$" decimal ->
  call (S fuel) IsDecimal this [VStr s] h
  = (Ret (VBool (negb (String.eqb s "") && re_test decimal s)), h).
Proof.
  intros Htest. simpl. unfold Ext.isDecimal, arg, bind. simpl.
  destruct (String.eqb s ""); [done|]. simpl. by rewrite Htest.
Qed.

(** X23: [isDecimal] returns [true] exactly on the non-empty strings
    made of an optional integer part ([-] allowed, digits required), an
    optional fraction (a dot, digits allowed) and an optional exponent
    ([e] or [E], a sign allowed, digits required), in this order. *)
Theorem isDecimal_spec (fuel : nat) (h : heap) (this : value) (s : string) :
  tests_literal host "^(?:-?\d+)?(?:\.\d*)?(?:[Ee][+-]?\d+)?$" decimal ->
  exists b,
    call (S fuel) IsDecimal this [VStr s] h = (Ret (VBool b), h) /\
    (b = true <->
     s <> ""%string /\
     exists i f e, s = (i ++ f ++ e)%string /\
       integer_form i /\ fraction_form f /\ exponent_form e).
Proof.
  intros Htest. exists (negb (String.eqb s "") && re_test decimal s).
  split; [by apply isDecimal_run|].
  rewrite andb_true_iff, negb_true_iff, String.eqb_neq.
  by rewrite LiteralForms.test_decimal.
Qed.

(** X24: the guard [str !== ''] of [isDecimal] matters: the literal
    alone accepts the empty string, and [isDecimal] rejects it; and
    whatever [isDecimal] accepts is made of the characters
    [0123456789.-+eE] only. *)
Theorem isDecimal_guard_and_alphabet (fuel : nat) (h : heap) (this : value) :
  tests_literal host "^(?:-?\d+)?(?:\.\d*)?(?:[Ee][+-]?\d+)?$" decimal ->
  re_test decimal "" = true /\
  call (S fuel) IsDecimal this [VStr ""] h = (Ret (VBool false), h) /\
  forall s,
    call (S fuel) IsDecimal this [VStr s] h = (Ret (VBool true), h) ->
    forall c, In c (list_ascii_of_string s) -> one_of "0123456789.-+eE" c = true.
Proof.
  intros Htest. split; [done|]. split; [by rewrite isDecimal_run|].
  intros s Hs c Hc. rewrite isDecimal_run in Hs by done.
  injection Hs as [_ Hs]%andb_prop.
  apply LiteralFacts.accepts_spec, LiteralFacts.matches_uses in Hs.
  rewrite Forall_forall in Hs. apply LiteralForms.decimal_uses, Hs.
  by apply list_elem_of_In.
Qed.

(** X25: so [isDecimal] accepts strings without any digit before or
    after the dot, and without anything before the exponent: for every
    string of digits [d], it accepts [d] followed by a dot, a dot
    followed by [d], and, when [d] is not empty, [e] followed by [d];
    it accepts a dot alone. *)
Theorem isDecimal_loose_forms (fuel : nat) (h : heap) (this : value) (d : string) :
  tests_literal host "^(?:-?\d+)?(?:\.\d*)?(?:[Ee][+-]?\d+)?$" decimal ->
  digits d ->
  let accepted s := call (S fuel) IsDecimal this [VStr s] h = (Ret (VBool true), h) in
  accepted ("." ++ d)%string /\
  accepted "."%string /\
  (d <> ""%string -> accepted (d ++ ".")%string /\ accepted ("e" ++ d)%string).
Proof.
  intros Htest Hd accepted.
  assert (forall i f e, integer_form i -> fraction_form f -> exponent_form e ->
            (i ++ f ++ e)%string <> ""%string -> accepted (i ++ f ++ e)%string) as Hform.
  { intros i f e Hi Hf He Hne. unfold accepted. rewrite isDecimal_run by done.
    apply String.eqb_neq in Hne as ->. simpl. do 3 f_equal.
    apply LiteralForms.test_decimal. by exists i, f, e. }
  split; [|split].
  - rewrite <- (append_empty_r ("." ++ d)).
    apply (Hform "" ("." ++ d) "")%string; [by left|right; by exists d|by left|done].
  - apply (Hform "" "." "")%string; [by left| |by left|done].
    right. exists ""%string. split; [constructor|done].
  - intros Hne. split.
    + replace (d ++ ".")%string with (d ++ "." ++ "")%string by done.
      apply Hform; [right; exists d; auto| |by left|].
      * right. exists ""%string. split; [constructor|done].
      * by destruct d.
    + apply (Hform "" "" ("e" ++ d))%string; [by left|by left| |done].
      right. exists "e"%string, ""%string, d. auto.
Qed.

End Literals.

Lemma literal_engine_tests :
  tests_literal Literal.engine "^\s*$" Literal.blank /\
  tests_literal Literal.engine "^(?:-?\d+)?(?:\.\d*)?(?:[Ee][+-]?\d+)?$" Literal.decimal.
Proof. split; intros s h; reflexivity. Defined.

Lemma notEmpty_spec_witness :
  exists b,
    @call Literal.engine 1 NotEmpty VUndefined [VStr "  a "] ∅ = (Ret (VBool b), ∅) /\
    (b = true <->
     exists c, In c (list_ascii_of_string "  a ") /\ Literal.space c = false).
Proof.
  destruct (@notEmpty_spec Literal.engine 0 ∅ VUndefined "  a "
              (proj1 literal_engine_tests)) as (b & Hcall & Htrue & _).
  exists b. split; [exact Hcall|exact Htrue].
Defined.

Lemma isDecimal_spec_witness :
  exists b,
    @call Literal.engine 1 IsDecimal VUndefined [VStr "-12.5e+3"] ∅
      = (Ret (VBool b), ∅) /\
    (b = true <->
     "-12.5e+3"%string <> ""%string /\
     exists i f e, "-12.5e+3"%string = (i ++ f ++ e)%string /\
       integer_form i /\ fraction_form f /\ exponent_form e).
Proof.
  exact (@isDecimal_spec Literal.engine 0 ∅ VUndefined "-12.5e+3"
           (proj2 literal_engine_tests)).
Defined.

Lemma isDecimal_guard_and_alphabet_witness :
  @call Literal.engine 1 IsDecimal VUndefined [VStr ""] ∅ = (Ret (VBool false), ∅).
Proof.
  exact (proj1 (proj2 (@isDecimal_guard_and_alphabet Literal.engine 0 ∅ VUndefined
                         (proj2 literal_engine_tests)))).
Defined.

Lemma isDecimal_loose_forms_witness :
  @call Literal.engine 1 IsDecimal VUndefined [VStr ".5"] ∅ = (Ret (VBool true), ∅) /\
  @call Literal.engine 1 IsDecimal VUndefined [VStr "."] ∅ = (Ret (VBool true), ∅).
Proof.
  assert (digits "5") as Hd by (repeat constructor).
  destruct (@isDecimal_loose_forms Literal.engine 0 ∅ VUndefined "5"
              (proj2 literal_engine_tests) Hd) as (H1 & H2 & _).
  split; [exact H1|exact H2].
Defined.

(** The matcher on a few inputs: [isDecimal] rejects a leading [+], a
    lone [-] and an exponent without digits. *)
Example isDecimal_examples :
  map (fun s => fst (@call Literal.engine 1 IsDecimal VUndefined [VStr s] ∅))
    ["12"; "-12.50"; "1e5"; "+1"; "-"; "1e"; "1.2.3"; " 1"]
  = map (fun b => Ret (VBool b)) [true; true; true; false; false; false; false; false].
Proof. vm_compute. reflexivity. Qed.
